(** * ObservationTools: radial-velocity engine ([rv.py], [utils/rv_utils.py])

    A shallow embedding of the orbital-mechanics core of ObservationTools
    and of the parameter ingestion of the [rv.py] script, with the
    properties of the specification stated and settled against it.

    Numeric model.  The numpy code ([RV.mean_anomaly], [RV.true_anomaly],
    [RV.radial_velocity], ...) is run on [npfloat]: the real numbers
    extended with the IEEE-754 special values [+inf], [-inf] and [nan],
    which numpy produces instead of raising (division by zero, square root
    of a negative number).  Arithmetic on finite values is exact: rounding,
    overflow and the sign of zero are not modelled.  What is stated on this
    model is what does not depend on them: the shape of the results, the
    exceptions raised, the propagation of [inf] and [nan], the control of
    the Newton loop, and which expression a method evaluates.  The accuracy
    of the computed values is not: module [binary64] runs three expressions
    of the same code on binary64 floats, and the examples on it show the
    rounding that the exact model leaves out.  The plain Python float code
    of [companion_amplitude], of [JulianDate.reduce] and of [rv.main] is
    run on binary64 floats ([PrimFloat]), where Python raises
    [ZeroDivisionError]. *)

From Stdlib Require Import Floats.
From Stdlib Require Import Reals Lra Lia ZArith Ascii.
From stdpp Require Import gmap strings.
From Equations Require Import Equations.

Set Warnings "-register-all,-inexact-float".

(** ** Python exceptions and outcomes *)

Inductive exn :=
| TypeError
| ValueError
| KeyError (key : string)
| RuntimeError
| ZeroDivisionError
| NameError
| NotImplementedError.

Inductive result (A : Type) :=
| Ok (a : A)
| Raise (e : exn).
Arguments Ok {A} a.
Arguments Raise {A} e.

#[global] Instance result_ret : MRet result := fun _ a => Ok a.
#[global] Instance result_bind : MBind result := fun _ _ f m =>
  match m with Ok a => f a | Raise e => Raise e end.

(** ** numpy float64 values, idealised *)

Module np.
Local Open Scope R_scope.

Inductive npfloat :=
| Fin (r : R)
| PInf
| NInf
| NaN.

Definition is_finite (x : npfloat) : bool :=
  match x with Fin _ => true | _ => false end.

Definition signed_inf (positive : bool) : npfloat :=
  if positive then PInf else NInf.

(** [inf_times pos r] is the product (or quotient) of an infinity of the
    given sign with a finite factor [r]. *)
Definition inf_times (positive : bool) (r : R) : npfloat :=
  if Rlt_dec 0 r then signed_inf positive
  else if Rlt_dec r 0 then signed_inf (negb positive)
  else NaN.

Definition fneg (x : npfloat) : npfloat :=
  match x with
  | Fin a => Fin (- a)
  | PInf => NInf
  | NInf => PInf
  | NaN => NaN
  end.

Definition fadd (x y : npfloat) : npfloat :=
  match x, y with
  | NaN, _ | _, NaN => NaN
  | Fin a, Fin b => Fin (a + b)
  | PInf, NInf | NInf, PInf => NaN
  | PInf, _ | _, PInf => PInf
  | NInf, _ | _, NInf => NInf
  end.

Definition fsub (x y : npfloat) : npfloat := fadd x (fneg y).

Definition fmul (x y : npfloat) : npfloat :=
  match x, y with
  | NaN, _ | _, NaN => NaN
  | Fin a, Fin b => Fin (a * b)
  | PInf, Fin b | Fin b, PInf => inf_times true b
  | NInf, Fin b | Fin b, NInf => inf_times false b
  | PInf, PInf | NInf, NInf => PInf
  | PInf, NInf | NInf, PInf => NInf
  end.

(** numpy's true division: a zero divisor gives [inf] or [nan] (with a
    RuntimeWarning), never an exception.  The divisor zero is taken as
    [+0.0]. *)
Definition fdiv (x y : npfloat) : npfloat :=
  match x, y with
  | NaN, _ | _, NaN => NaN
  | Fin a, Fin b =>
      if Req_dec_T b 0 then
        (if Rlt_dec 0 a then PInf else if Rlt_dec a 0 then NInf else NaN)
      else Fin (a / b)
  | Fin _, (PInf | NInf) => Fin 0
  | PInf, Fin b => if Rlt_dec b 0 then NInf else PInf
  | NInf, Fin b => if Rlt_dec b 0 then PInf else NInf
  | (PInf | NInf), (PInf | NInf) => NaN
  end.

Definition fabs (x : npfloat) : npfloat :=
  match x with
  | Fin a => Fin (Rabs a)
  | PInf | NInf => PInf
  | NaN => NaN
  end.

Definition fsin (x : npfloat) : npfloat :=
  match x with Fin a => Fin (sin a) | _ => NaN end.

Definition fcos (x : npfloat) : npfloat :=
  match x with Fin a => Fin (cos a) | _ => NaN end.

Definition fsqrt (x : npfloat) : npfloat :=
  match x with
  | Fin a => if Rlt_dec a 0 then NaN else Fin (sqrt a)
  | PInf => PInf
  | NInf | NaN => NaN
  end.

(** The two-argument arctangent on finite arguments: the angle in
    [(-PI, PI]] of the point [(x, y)]. *)
Definition atan2 (y x : R) : R :=
  if Rlt_dec 0 x then atan (y / x)
  else if Rlt_dec x 0 then
    (if Rlt_dec y 0 then atan (y / x) - PI else atan (y / x) + PI)
  else if Rlt_dec 0 y then PI / 2
  else if Rlt_dec y 0 then - (PI / 2)
  else 0.

Definition farctan2 (y x : npfloat) : npfloat :=
  match y, x with
  | NaN, _ | _, NaN => NaN
  | Fin b, Fin a => Fin (atan2 b a)
  | Fin b, PInf => Fin 0
  | Fin b, NInf => if Rlt_dec b 0 then Fin (- PI) else Fin PI
  | PInf, Fin _ => Fin (PI / 2)
  | NInf, Fin _ => Fin (- (PI / 2))
  | PInf, PInf => Fin (PI / 4)
  | NInf, PInf => Fin (- (PI / 4))
  | PInf, NInf => Fin (3 * (PI / 4))
  | NInf, NInf => Fin (- (3 * (PI / 4)))
  end.

(** [x > y]; every comparison with [nan] is false. *)
Definition fgt (x y : npfloat) : bool :=
  match x, y with
  | NaN, _ | _, NaN => false
  | Fin a, Fin b => if Rlt_dec b a then true else false
  | PInf, (Fin _ | NInf) => true
  | Fin _, NInf => true
  | _, _ => false
  end.

(** [np.deg2rad]. *)
Definition deg2rad (x : npfloat) : npfloat := fmul x (Fin (PI / 180)).

(** [np.linalg.norm(a, ord=1)] of a one-dimensional array. *)
Definition norm1 (a : list npfloat) : npfloat :=
  foldr (fun x acc => fadd (fabs x) acc) (Fin 0) a.

End np.

(** ** [utils/rv_utils.py] *)

Module rv_utils.
Import np.
Local Open Scope R_scope.

(** Arguments typed [Any] in the source: a number (Python [int] or
    [float], or a numpy scalar such as [np.float64], itself a [float]),
    a one-dimensional numpy array, or a Python list. *)
Inductive pyarg :=
| Scalar (x : npfloat)
| Array (a : list npfloat)
| PyList (l : list npfloat).

(** Values held in parameter dictionaries and in the fields of [RV]. *)
Inductive pyval :=
| VFloat (x : npfloat)
| VStr (s : string)
| VDict (d : gmap string pyval).

(** Arithmetic between a number and a [str] (or [dict]) operand raises
    [TypeError].  The model raises it where the value is read.  The code
    raises it at the first use of the value: that is later when another
    error comes first (an empty array of times fails the test of
    [true_anomaly] before a non-numeric [ecc] is used), and a [mean_val]
    replaced under [ignore_mean] is used only by the test for [str].
    Where a statement below depends on the place of this error, the
    fields and parameters are numbers or, for [RV_from_params], strings. *)
Definition as_float (v : pyval) : result npfloat :=
  match v with
  | VFloat x => Ok x
  | _ => Raise TypeError
  end.

(** [d[k]]. *)
Definition getitem (d : gmap string pyval) (k : string) : result pyval :=
  match d !! k with
  | Some v => Ok v
  | None => Raise (KeyError k)
  end.

(** A vectorised numpy expression in one [Any] operand: a number gives a
    number, an array an array of the same shape; a Python list does not
    support arithmetic with a float. *)
Definition elementwise (f : npfloat -> npfloat) (x : pyarg) : result pyarg :=
  match x with
  | Scalar a => Ok (Scalar (f a))
  | Array a => Ok (Array (map f a))
  | PyList _ => Raise TypeError
  end.

(** The values of an operand as they broadcast against a one-dimensional
    array. *)
Definition values (x : pyarg) : list npfloat :=
  match x with
  | Scalar a => [a]
  | Array a => a
  | PyList l => l
  end.

(** Convergence threshold of the Newton-Raphson loop, [1e-5]. *)
Definition tolerance : R := / 100000.

(** [ff = ea - ecc * np.sin(ea) - ma], [dff = 1 - ecc * np.cos(ea)],
    [ea = ea0 - ff / dff], lines 110-114, on each element. *)
Definition newton_update (ecc m e0 : npfloat) : npfloat :=
  let ff := fsub (fsub e0 (fmul ecc (fsin e0))) m in
  let dff := fsub (Fin 1) (fmul ecc (fcos e0)) in
  fsub e0 (fdiv ff dff).

(** The [while] loop of [RV.true_anomaly], lines 107-120, entered with the
    loop variables [niteration], [ea] and [ea0].  It runs until the test
    fails or the iteration cap raises, so it recurses on what is left of
    the cap. *)
Equations? newton_loop (ecc : npfloat) (ma : list npfloat) (niterationmax : Z)
    (niteration : Z) (ea ea0 : list npfloat) : result (list npfloat)
    by wf (Z.to_nat (niterationmax - niteration)) lt :=
  newton_loop ecc ma niterationmax niteration ea ea0
    with fgt (norm1 (zip_with fsub ea ea0)) (Fin tolerance)
         || (niteration =? 0)%Z => {
    | false := Ok ea
    | true with Z_ge_dec (niteration + 1) niterationmax => {
        | left _ := Raise RuntimeError
        | right _ :=
            newton_loop ecc ma niterationmax (niteration + 1)
              (zip_with (newton_update ecc) ma ea) ea } }.
Proof. lia. Qed.

(** Eccentric anomaly to true anomaly, lines 123-124, on each element. *)
Definition ea_to_ta (ecc ea : npfloat) : npfloat :=
  fmul (Fin 2)
    (farctan2 (fmul (fsqrt (fadd (Fin 1) ecc)) (fsin (fdiv ea (Fin 2))))
              (fmul (fsqrt (fsub (Fin 1) ecc)) (fcos (fdiv ea (Fin 2))))).

(** [RV.true_anomaly(ma, ecc, niterationmax=10000)].  Lines 93-96 wrap a
    number into the one-element array [np.array([ma,])] and take an array
    as it is: in both cases [ea] holds [values ma]. *)
Definition true_anomaly (ma : pyarg) (ecc : npfloat) (niterationmax : Z)
  : result pyarg :=
  let ea := values ma in
  match ma with
  | PyList _ => Raise TypeError
  | _ =>
      if (length ea =? 0)%nat then Raise ValueError
      else
        ea ← newton_loop ecc (values ma) niterationmax 0 ea (values ma);
        Ok (Array (map (ea_to_ta ecc) ea))
  end.

Definition default_niterationmax : Z := 10000.

(** [RV.mean_anomaly(times, t0, period)]: [np.array] of a number is a
    zero-dimensional array, and arithmetic on it gives a numpy scalar. *)
Definition mean_anomaly (times : pyarg) (t0 period : npfloat) : result pyarg :=
  elementwise (fun t => fdiv (fmul (Fin (2 * PI)) (fsub t t0)) period) times.

(** [RV.radial_velocity(gamma, k, ta, omega, ecc)]. *)
Definition radial_velocity (gamma k : npfloat) (ta : pyarg) (omega ecc : npfloat)
  : result pyarg :=
  elementwise
    (fun nu => fadd gamma (fmul k (fadd (fcos (fadd nu omega))
                                        (fmul ecc (fcos omega))))) ta.

(** *** class [RV] *)

Record RV := mkRV {
  semi_amp : pyval;
  period : pyval;
  ecc : pyval;
  tau : pyval;
  gamma : pyval;
  omega : pyval;
  params : gmap string pyval
}.

Definition param_dict (self : RV) : gmap string pyval :=
  <["k1" := semi_amp self]> (<["period" := period self]>
  (<["eccentricity" := ecc self]> (<["tau" := tau self]>
  (<["mean_val" := gamma self]> (<["omega" := omega self]> ∅))))).

(** [RV.__init__]: an omitted argument ([None] here) takes the default
    [0.0]; [other_params] is the dictionary of the remaining keyword
    arguments, and [self.params.update(other_params)] lets its entries
    win. *)
Definition RV__init__ (semi_amp period ecc tau gamma omega : option pyval)
    (other_params : gmap string pyval) : RV :=
  let dflt := default (VFloat (Fin 0)) in
  let self := mkRV (dflt semi_amp) (dflt period) (dflt ecc) (dflt tau)
                   (dflt gamma) (dflt omega) ∅ in
  mkRV (dflt semi_amp) (dflt period) (dflt ecc) (dflt tau)
       (dflt gamma) (dflt omega) (other_params ∪ param_dict self).

(** [RV.from_dict(params)]: the mapping is passed as the single keyword
    argument named [other_params]. *)
Definition from_dict (params : gmap string pyval) : result RV :=
  k1 ← getitem params "k1";
  period ← getitem params "period";
  eccentricity ← getitem params "eccentricity";
  tau ← getitem params "tau";
  mean_val ← getitem params "mean_val";
  omega ← getitem params "omega";
  Ok (RV__init__ (Some k1) (Some period) (Some eccentricity) (Some tau)
        (Some mean_val) (Some omega) {["other_params" := VDict params]}).

(** [RV.rv_at_times(t)]. *)
Definition rv_at_times (self : RV) (t : pyarg) : result pyarg :=
  tau ← as_float (tau self);
  period ← as_float (period self);
  ma ← mean_anomaly t tau period;
  ecc ← as_float (ecc self);
  ta ← true_anomaly ma ecc default_niterationmax;
  gamma ← as_float (gamma self);
  k ← as_float (semi_amp self);
  omega ← as_float (omega self);
  radial_velocity gamma k ta omega ecc.

(** [RV.rv_at_phase(phase)]: [t = phase * self.period + self.tau]. *)
Definition rv_at_phase (self : RV) (phase : pyarg) : result pyarg :=
  period ← as_float (period self);
  tau ← as_float (tau self);
  t ← elementwise (fun p => fadd (fmul p period) tau) phase;
  rv_at_times self t.

(** [np.max] of two values; [nan] propagates. *)
Definition fmax (x y : npfloat) : npfloat :=
  match x, y with
  | NaN, _ | _, NaN => NaN
  | _, _ => if fgt x y then x else y
  end.

(** [RV.max_amp()]: here [self.omega] is read as degrees. *)
Definition max_amp (self : RV) : result npfloat :=
  k ← as_float (semi_amp self);
  e ← as_float (ecc self);
  w ← as_float (omega self);
  let c := fcos (fdiv (fmul w (Fin PI)) (Fin 180)) in
  let amp_1 := fmul k (fadd (Fin 1) (fmul e c)) in
  let amp_2 := fmul k (fsub (Fin 1) (fmul e c)) in
  Ok (fmax (fabs amp_1) (fabs amp_2)).

(** [rv_curve_py(times, gamma, k, omega, ecc, t0, period)]. *)
Definition rv_curve_py (times : pyarg) (gamma k omega ecc t0 period : npfloat)
  : result pyarg :=
  ma ← mean_anomaly times t0 period;
  ta ← true_anomaly ma ecc default_niterationmax;
  radial_velocity gamma k ta omega ecc.

(** [np.array(t)] for a [t] that is not an array: a list becomes an
    array; a number becomes a zero-dimensional array, which arithmetic
    turns back into a numpy scalar. *)
Definition np_array (t : pyarg) : pyarg :=
  match t with
  | PyList l => Array l
  | _ => t
  end.

(** [RV_from_params(t, params, ignore_mean=False, companion=False)]:
    omega is converted from degrees to radians, line 255. *)
Definition RV_from_params (t : pyarg) (params : gmap string pyval)
    (ignore_mean companion : bool) : result pyarg :=
  let t := np_array t in
  mean_val ← getitem params "mean_val";
  k ← getitem params (if companion then "k2" else "k1");
  omega ← getitem params "omega";
  eccentricity ← getitem params "eccentricity";
  tau ← getitem params "tau";
  period ← getitem params "period";
  omega ← as_float omega;
  let omega := deg2rad omega in
  mean_val ← as_float mean_val;
  k ← as_float k;
  eccentricity ← as_float eccentricity;
  tau ← as_float tau;
  period ← as_float period;
  let mean_val := if ignore_mean then Fin 0 else mean_val in
  rv_curve_py t mean_val k omega eccentricity tau period.

(** [companion_amplitude(k_host, m_host, m_companion)], typed
    [(float, float, float) -> float], on binary64 floats. *)
Definition sun_jupiter_mass : float := 1047.56%float.

Definition companion_amplitude (k_host m_host m_companion : float)
  : result float :=
  let m_host := PrimFloat.mul m_host sun_jupiter_mass in
  if PrimFloat.eqb m_companion 0%float then Raise ZeroDivisionError
  else Ok (PrimFloat.div (PrimFloat.mul (PrimFloat.opp k_host) m_host)
                         m_companion).

(** [np.linspace(0, 1, num)], as numpy computes it: [num] samples
    [i * step + start] with [step = (stop - start) / (num - 1)], the last
    one set to [stop]; a single sample is [start]. *)
Definition linspace01 (num : Z) : result (list npfloat) :=
  if (num <? 0)%Z then Raise ValueError
  else
    let div := (num - 1)%Z in
    let step := if (0 <? div)%Z then fdiv (Fin 1) (Fin (IZR div)) else Fin 1 in
    let y := map (fun i : nat => fadd (fmul (Fin (INR i)) step) (Fin 0))
                 (seq 0 (Z.to_nat num)) in
    Ok (if (1 <? num)%Z then <[Z.to_nat div := Fin 1]> y else y).

(** [RV.rv_full_phase(center=0, points=100)]. *)
Definition rv_full_phase (self : RV) (center : npfloat) (points : Z)
  : result pyarg :=
  samples ← linspace01 points;
  let phase := Array (map (fun x => fadd x center) samples) in
  rv_at_phase self phase.

(** *** class [JulianDate]: the state and [reduce] *)

Record JulianDate := mkJulianDate {
  jd : float;
  reduced : bool
}.

Definition reduce_jd : float := 2400000%float.

(** [JulianDate.reduce()], on the object it mutates. *)
Definition reduce (self : JulianDate) : JulianDate :=
  if reduced self then self
  else mkJulianDate (PrimFloat.sub (jd self) reduce_jd) true.

(** [join_times(obs_times=None, obs_list=None)].  [parse_obslist] comes
    from [utils.parse]; the name [pv] is neither defined nor imported in
    [rv_utils.py], and the argument of [logging.debug] is evaluated
    whatever the logging level. *)
Definition join_times (parse_obslist : string -> result (list string))
    (obs_times : option (list string)) (obs_list : option string)
  : result (option (list string)) :=
  let obs_times := default [] obs_times in
  obs_list ← match obs_list with
             | None => Ok []
             | Some filename => parse_obslist filename
             end;
  _ ← (Raise NameError : result unit);
  let obs_times := obs_times ++ obs_list in
  _ ← (Raise NameError : result unit);
  if bool_decide (obs_times = []) then Ok None else Ok (Some obs_times).

(** *** Vocabulary of the statements about the solver *)

(** The array [ea] after [n] passes through the loop body, and the L1
    norm the loop test sees after the [j]-th pass. *)
Definition iterate (ecc : npfloat) (ma : list npfloat) (n : nat)
  : list npfloat :=
  Nat.iter n (zip_with (newton_update ecc) ma) ma.

Definition change (ecc : npfloat) (ma : list npfloat) (j : nat) : npfloat :=
  norm1 (zip_with fsub (iterate ecc ma j) (iterate ecc ma (pred j))).

(** [ma] is a number or a numpy array (not a list) whose values are the
    finite numbers [Ms]. *)
Inductive finite_values : pyarg -> list R -> Prop :=
| finite_scalar (M : R) : finite_values (Scalar (Fin M)) [M]
| finite_array (Ms : list R) : finite_values (Array (Fin <$> Ms)) Ms.

(** Kepler's equation [E - e sin E - M = 0], its Newton step, and the
    true anomaly of an eccentric anomaly, on real numbers. *)
Definition kepler_residual (e M E : R) : R := E - e * sin E - M.

Definition kepler_newton (e M E : R) : R :=
  E - kepler_residual e M E / (1 - e * cos E).

Definition true_anomaly_of (e E : R) : R :=
  2 * atan2 (sqrt (1 + e) * sin (E / 2)) (sqrt (1 - e) * cos (E / 2)).

(** L1 norm of the difference of two real arrays. *)
Definition l1_distance (xs ys : list R) : R :=
  foldr Rplus 0 (zip_with (fun x y => Rabs (x - y)) xs ys).

(** The Newton iterates of Kepler's equation on real numbers. *)
Definition kepler_iterate (e : R) (Ms : list R) (n : nat) : list R :=
  Nat.iter n (zip_with (kepler_newton e) Ms) Ms.

(** What the loop does when entered after [k] passes: it leaves with the
    first iterate from the [k]-th on (and at least the first) whose change
    the test does not find above the tolerance, if that comes before the
    cap, and raises [RuntimeError] otherwise. *)
Definition loop_outcome (ecc : npfloat) (ma : list npfloat) (nmax : Z)
    (k : nat) (res : result (list npfloat)) : Prop :=
  match res with
  | Ok ea =>
      exists j : nat,
        (k <= j)%nat /\ (1 <= j)%nat /\ (Z.of_nat j < nmax)%Z
        /\ ea = iterate ecc ma j
        /\ fgt (change ecc ma j) (Fin tolerance) = false
        /\ forall i : nat, (k <= i < j)%nat -> (1 <= i)%nat ->
             fgt (change ecc ma i) (Fin tolerance) = true
  | Raise e =>
      e = RuntimeError
      /\ forall i : nat, (k <= i)%nat -> (1 <= i)%nat -> (Z.of_nat i < nmax)%Z ->
           fgt (change ecc ma i) (Fin tolerance) = true
  end.

(** The change of the [j]-th pass is a number not above the tolerance. *)
Definition small_change (ecc : npfloat) (ma : list npfloat) (j : nat) : Prop :=
  exists d : R, change ecc ma j = Fin d /\ d <= tolerance.

(** The guarantee claimed for the solver at one input, the passes within
    the cap being those numbered 1 to [niterationmax]: the call returns
    the true anomalies of the iterate of one of these passes, whose change
    is a number not above the tolerance; or it raises [RuntimeError], and
    then none of these passes had such a change. *)
Definition converged_or_raises (ma : pyarg) (ecc : npfloat) (nmax : Z) : Prop :=
  (exists j : nat,
      (1 <= j)%nat /\ (Z.of_nat j <= nmax)%Z
      /\ true_anomaly ma ecc nmax
         = Ok (Array (ea_to_ta ecc <$> iterate ecc (values ma) j))
      /\ small_change ecc (values ma) j)
  \/ (true_anomaly ma ecc nmax = Raise RuntimeError
      /\ forall i : nat, (1 <= i)%nat -> (Z.of_nat i <= nmax)%Z ->
           ~ small_change ecc (values ma) i).

(** The fields of [self] are the finite numbers [k], [P], [e], [t0], [g]
    and [w]. *)
Definition orbital_elements (self : RV) (k P e t0 g w : R) : Prop :=
  semi_amp self = VFloat (Fin k) /\ period self = VFloat (Fin P)
  /\ ecc self = VFloat (Fin e) /\ tau self = VFloat (Fin t0)
  /\ gamma self = VFloat (Fin g) /\ omega self = VFloat (Fin w).

(** The radial-velocity equation on real numbers. *)
Definition rv_equation (g k nu w e : R) : R :=
  g + k * (cos (nu + w) + e * cos w).

(** The six orbital entries of [params] are the finite numbers [g], [k],
    [w], [e], [t0] and [P]. *)
Definition finite_params (params : gmap string pyval) (g k w e t0 P : R)
  : Prop :=
  params !! "mean_val" = Some (VFloat (Fin g))
  /\ params !! "k1" = Some (VFloat (Fin k))
  /\ params !! "omega" = Some (VFloat (Fin w))
  /\ params !! "eccentricity" = Some (VFloat (Fin e))
  /\ params !! "tau" = Some (VFloat (Fin t0))
  /\ params !! "period" = Some (VFloat (Fin P)).

(** The keys [RV_from_params] reads, in the order it reads them. *)
Definition needed_keys (companion : bool) : list string :=
  ["mean_val"; if companion then "k2" else "k1"; "omega"; "eccentricity";
   "tau"; "period"].

(** The keys [param_dict] writes. *)
Definition own_keys : list string :=
  ["k1"; "period"; "eccentricity"; "tau"; "mean_val"; "omega"].

(** A parameter mapping with the six required keys and the extra key
    [k2]. *)
Definition example_mapping : gmap string pyval :=
  <["k1" := VFloat (Fin 1)]> (<["period" := VFloat (Fin 1)]>
  (<["eccentricity" := VFloat (Fin 0)]> (<["tau" := VFloat (Fin 0)]>
  (<["mean_val" := VFloat (Fin 0)]> (<["omega" := VFloat (Fin 0)]>
  (<["k2" := VFloat (Fin 5)]> ∅)))))).

(** [RV(semi_amp=1, period=1)], and the same orbit with its periastron
    one degree off: [RV(semi_amp=1, period=1, omega=1)]. *)
Definition unit_rv : RV :=
  RV__init__ (Some (VFloat (Fin 1))) (Some (VFloat (Fin 1))) None None None
             None ∅.

Definition one_degree_rv : RV :=
  RV__init__ (Some (VFloat (Fin 1))) (Some (VFloat (Fin 1))) None None None
             (Some (VFloat (Fin 1))) ∅.

(** [RV()]: every argument at its default. *)
Definition default_rv : RV := RV__init__ None None None None None None ∅.

End rv_utils.

(** ** Binary64 arithmetic of three expressions of [utils/rv_utils.py] *)

Module binary64.
Local Open Scope float_scope.

(** [np.pi]. *)
Definition pi : float := 0x1.921fb54442d18p+1.

(** [t = phase * self.period + self.tau], line 48, on one value. *)
Definition phase_time (phase period tau : float) : float :=
  phase * period + tau.

(** [2 * np.pi * (times - t0) / period], line 150, on one value. *)
Definition mean_anomaly (times t0 period : float) : float :=
  2 * pi * (times - t0) / period.

(** [ff = ea - ecc * np.sin(ea) - ma], line 110, on one value, given the
    value [sin_ea] that [np.sin(ea)] returned. *)
Definition kepler_ff (ea ecc sin_ea ma : float) : float :=
  ea - ecc * sin_ea - ma.

End binary64.

(** ** [rv.py] *)

Module rv.

(** Values of the [parameters] dictionary of [main]: the strings read from
    the file, and binary64 floats once converted. *)
Inductive pyval :=
| VStr (s : string)
| VFloat (f : float).

(** A Python [dict] keeps its keys in insertion order, and [main] iterates
    over them: an association list without repeated keys. *)
Definition dict := list (string * pyval).

Fixpoint dict_get (d : dict) (k : string) : option pyval :=
  match d with
  | [] => None
  | (k', v) :: d' => if decide (k' = k) then Some v else dict_get d' k
  end.

(** [d[k] = v]: a key already present keeps its place. *)
Fixpoint dict_set (d : dict) (k : string) (v : pyval) : dict :=
  match d with
  | [] => [(k, v)]
  | (k', v') :: d' =>
      if decide (k' = k) then (k', v) :: d' else (k', v') :: dict_set d' k v
  end.

Definition dict_keys (d : dict) : list string := d.*1.

Definition contains (d : dict) (k : string) : bool :=
  bool_decide (is_Some (dict_get d k)).

Definition getitem (d : dict) (k : string) : result pyval :=
  match dict_get d k with
  | Some v => Ok v
  | None => Raise (KeyError k)
  end.

(** *** [str] methods, on ASCII text *)

(** Characters removed by [str.strip()]. *)
Definition is_space (c : ascii) : bool :=
  let n := nat_of_ascii c in
  ((9 <=? n) && (n <=? 13) || (28 <=? n) && (n <=? 32))%nat.

Definition lower_char (c : ascii) : ascii :=
  let n := nat_of_ascii c in
  if ((65 <=? n) && (n <=? 90))%nat then ascii_of_nat (n + 32) else c.

Fixpoint lower (s : string) : string :=
  match s with
  | EmptyString => EmptyString
  | String c s' => String (lower_char c) (lower s')
  end.

Fixpoint lstrip (s : string) : string :=
  match s with
  | EmptyString => EmptyString
  | String c s' => if is_space c then lstrip s' else s
  end.

Definition strip (s : string) : string :=
  String.rev (lstrip (String.rev (lstrip s))).

(** [s.split(sep)] for a one-character separator: one more field than
    there are separators. *)
Fixpoint split (sep : ascii) (s : string) : list string :=
  match s with
  | EmptyString => [EmptyString]
  | String c s' =>
      if decide (c = sep) then EmptyString :: split sep s'
      else match split sep s' with
           | field :: fields => String c field :: fields
           | [] => [String c EmptyString]
           end
  end.

(** [s.count(sep)] for a one-character [sep]. *)
Fixpoint count (sep : ascii) (s : string) : nat :=
  match s with
  | EmptyString => 0
  | String c s' => (if decide (c = sep) then 1 else 0) + count sep s'
  end.

Definition startswith_hash (s : string) : bool :=
  match s with
  | String c _ => bool_decide (c = "#"%char)
  | EmptyString => false
  end.

(** A line as iteration over the file yields it, with its newline. *)
Definition text_line (s : string) : string :=
  s +:+ String "010"%char EmptyString.

(** *** Arithmetic of [companion_amplitude] on dictionary values *)

Definition py_mul (x y : pyval) : result pyval :=
  match x, y with
  | VFloat a, VFloat b => Ok (VFloat (PrimFloat.mul a b))
  | _, _ => Raise TypeError
  end.

Definition py_neg (x : pyval) : result pyval :=
  match x with
  | VFloat a => Ok (VFloat (PrimFloat.opp a))
  | VStr _ => Raise TypeError
  end.

(** Python float division raises on a zero divisor. *)
Definition py_truediv (x y : pyval) : result pyval :=
  match x, y with
  | VFloat a, VFloat b =>
      if PrimFloat.eqb b 0%float then Raise ZeroDivisionError
      else Ok (VFloat (PrimFloat.div a b))
  | _, _ => Raise TypeError
  end.

Definition sun_jupiter_mass : float := 1047.56%float.

(** [companion_amplitude(k_host, m_host, m_companion)], lines 27-47. *)
Definition companion_amplitude (k_host m_host m_companion : pyval)
  : result pyval :=
  m_host ← py_mul m_host (VFloat sun_jupiter_mass);
  minus_k_host ← py_neg k_host;
  product ← py_mul minus_k_host m_host;
  py_truediv product m_companion.

(** *** [raise] *)

(** What a [raise] statement can be given: an exception class, or the
    builtin constant [NotImplemented], which is not an exception. *)
Inductive raisable :=
| ExceptionClass (e : exn)
| NotImplemented.

(** [raise obj]: an object that does not derive from [BaseException]
    makes the statement itself fail with [TypeError]. *)
Definition py_raise {A : Type} (obj : raisable) : result A :=
  match obj with
  | ExceptionClass e => Raise e
  | NotImplemented => Raise TypeError
  end.

Section main.

(** The builtin [float(str)]; [None] stands for its [ValueError]. *)
Variable py_float : string -> option float.

Definition float_of (v : pyval) : result float :=
  match v with
  | VFloat f => Ok f
  | VStr s => match py_float s with
              | Some f => Ok f
              | None => Raise ValueError
              end
  end.

(** Lines 62-69: one [key = value] pair per line that does not start
    with [#]. *)
Fixpoint load_params (parameters : dict) (lines : list string) : result dict :=
  match lines with
  | [] => Ok parameters
  | line :: lines' =>
      if startswith_hash line then load_params parameters lines'
      else match split "="%char (lower line) with
           | [par; val] =>
               load_params (dict_set parameters (strip par) (VStr (strip val)))
                           lines'
           | _ => Raise ValueError
           end
  end.

(** The keys of line 73-74, as written there. *)
Definition float_keys : list string :=
  ["mean_val"; "k1"; "omega"; "eccentricity"; "tau"; "period";
   "m_star"; "msini "; "m_true"].

(** Lines 72-75, over the keys still to visit. *)
Fixpoint to_floats (keys : list string) (parameters : dict) : result dict :=
  match keys with
  | [] => Ok parameters
  | key :: keys' =>
      if bool_decide (key ∈ float_keys) then
        v ← getitem parameters key;
        f ← float_of v;
        to_floats keys' (dict_set parameters key (VFloat f))
      else to_floats keys' parameters
  end.

(** Lines 78-89. *)
Definition add_k2 (parameters : dict) : result dict :=
  if contains parameters "k2" then Ok parameters
  else
    let mass := if contains parameters "m_true" then "m_true" else "msini" in
    k1 ← getitem parameters "k1";
    m_star ← getitem parameters "m_star";
    m ← getitem parameters mass;
    k2 ← companion_amplitude k1 m_star m;
    Ok (dict_set parameters "k2" k2).

(** Lines 61-89: the dictionary [main] has built when it reaches the
    mode test. *)
Definition ingest (lines : list string) : result dict :=
  parameters ← load_params [] lines;
  parameters ← to_floats (dict_keys parameters) parameters;
  add_k2 parameters.

(** [main(params, mode)], on the lines of the file [params].  The name
    [RV_phase_curve] is neither defined nor imported in [rv.py]. *)
Definition main (lines : list string) (mode : string) : result unit :=
  parameters ← ingest lines;
  if decide (mode = "phase") then Raise NameError
  else py_raise NotImplemented.

End main.

End rv.

(** * Properties *)

(** ** Where binary64 departs from the exact model *)

Section binary64_rounding.
Import binary64.
Local Open Scope float_scope.

(** With [tau = 2**53] and [period = 3], phase 1 is evaluated four days
    after [tau], not three: its mean anomaly is [8 pi / 3], a third of a
    turn beyond the full turn [2 pi]. *)
Example phase_one_is_a_third_late :
  phase_time 0 3 9007199254740992 = 9007199254740992
  /\ phase_time 1 3 9007199254740992 = 9007199254740996
  /\ mean_anomaly (phase_time 0 3 9007199254740992) 9007199254740992 3 = 0
  /\ mean_anomaly (phase_time 1 3 9007199254740992) 9007199254740992 3
     = 8.3775804095727811
  /\ 2 * pi = 6.2831853071795862.
Proof. repeat split; reflexivity. Qed.

(** At the mean anomaly [1e22] the term [ecc * sin(ea)] is lost in the
    subtraction: the residual the loop sees at [ea = ma] is 0, whatever
    the sine (here the two extreme values and [-0.852...], the sine of
    [1e22]), and the first pass leaves [ea] where it is. *)
Example kepler_ff_cancels :
  kepler_ff 1e22 0.5 1 1e22 = 0
  /\ kepler_ff 1e22 0.5 (-1) 1e22 = 0
  /\ kepler_ff 1e22 0.5 (-0.8522008497671888) 1e22 = 0
  /\ 0.5 * (-0.8522008497671888) = -0.4261004248835944.
Proof. repeat split; reflexivity. Qed.

(** A time of [1e308] days overflows the mean anomaly. *)
Example mean_anomaly_overflows : mean_anomaly 1e308 0 1 = infinity.
Proof. reflexivity. Qed.

End binary64_rounding.

(** ** Real analysis: a cosine inequality *)

Section real_analysis.
Import np rv_utils.
Local Open Scope R_scope.

Lemma one_lt_PI : 1 < PI.
Proof. pose proof PI2_1. lra. Qed.

Lemma cos_1_lt_cos_degree : cos 1 < cos (1 * (PI / 180)).
Proof.
  pose proof one_lt_PI. pose proof PI_4.
  apply cos_decreasing_1; lra.
Qed.

End real_analysis.

(** ** The Newton-Raphson loop *)

Section newton_loop.
Import np rv_utils.
Local Open Scope R_scope.

Lemma newton_loop_exit ecc ma nmax n ea ea0 :
  fgt (norm1 (zip_with fsub ea ea0)) (Fin tolerance) || (n =? 0)%Z = false ->
  newton_loop ecc ma nmax n ea ea0 = Ok ea.
Proof. intros H. rewrite newton_loop_equation_1, H. reflexivity. Qed.

Lemma newton_loop_cap ecc ma nmax n ea ea0 :
  fgt (norm1 (zip_with fsub ea ea0)) (Fin tolerance) || (n =? 0)%Z = true ->
  (n + 1 >= nmax)%Z ->
  newton_loop ecc ma nmax n ea ea0 = Raise RuntimeError.
Proof.
  intros H Hcap. rewrite newton_loop_equation_1, H. simpl.
  destruct (Z_ge_dec (n + 1) nmax); [reflexivity|lia].
Qed.

Lemma newton_loop_next ecc ma nmax n ea ea0 :
  fgt (norm1 (zip_with fsub ea ea0)) (Fin tolerance) || (n =? 0)%Z = true ->
  (n + 1 < nmax)%Z ->
  newton_loop ecc ma nmax n ea ea0
  = newton_loop ecc ma nmax (n + 1) (zip_with (newton_update ecc) ma ea) ea.
Proof.
  intros H Hcap. rewrite newton_loop_equation_1, H. simpl.
  destruct (Z_ge_dec (n + 1) nmax); [lia|].
  by rewrite newton_loop_clause_1_clause_2_equation_2.
Qed.

Lemma newton_loop_from ecc ma nmax (k : nat) :
  (k = 0%nat \/ (Z.of_nat k < nmax)%Z) ->
  loop_outcome ecc ma nmax k
    (newton_loop ecc ma nmax (Z.of_nat k) (iterate ecc ma k)
       (iterate ecc ma (pred k))).
Proof.
  remember (Z.to_nat (nmax - Z.of_nat k)) as m eqn:Hm.
  revert k Hm. induction (lt_wf m) as [m _ IH]. intros k Hm Hk.
  destruct (fgt (norm1 (zip_with fsub (iterate ecc ma k) (iterate ecc ma (pred k))))
              (Fin tolerance) || (Z.of_nat k =? 0)%Z) eqn:Hcond.
  - destruct (Z_ge_dec (Z.of_nat k + 1) nmax) as [Hcap|Hcap].
    + rewrite newton_loop_cap by done. split; [done|].
      intros i Hki Hi Hlt. assert (i = k) as -> by lia.
      apply orb_true_iff in Hcond as [H|H]; [done|]. lia.
    + rewrite newton_loop_next by (done || lia).
      specialize (IH (Z.to_nat (nmax - Z.of_nat (S k))) ltac:(lia) (S k)
                    eq_refl ltac:(lia)).
      replace (Z.of_nat k + 1)%Z with (Z.of_nat (S k)) by lia.
      change (zip_with (newton_update ecc) ma (iterate ecc ma k))
        with (iterate ecc ma (S k)).
      simpl pred in IH.
      destruct (newton_loop _ _ _ _ _ _) as [ea|e]; simpl in *.
      * destruct IH as (j & Hj1 & Hj2 & Hj3 & -> & Hj4 & Hj5).
        exists j. repeat split; try done; try lia.
        intros i Hi Hi1. destruct (decide (i = k)) as [->|].
        -- apply orb_true_iff in Hcond as [H|H]; [done|]. lia.
        -- apply Hj5; lia.
      * destruct IH as [-> IH]. split; [done|].
        intros i Hi Hi1 Hlt. destruct (decide (i = k)) as [->|].
        -- apply orb_true_iff in Hcond as [H|H]; [done|]. lia.
        -- apply IH; lia.
  - rewrite newton_loop_exit by done.
    apply orb_false_iff in Hcond as [Hgt Hz].
    exists k. repeat split; try done; try lia.
Qed.

Lemma newton_loop_start ecc ma nmax :
  loop_outcome ecc ma nmax 0 (newton_loop ecc ma nmax 0 ma ma).
Proof. exact (newton_loop_from ecc ma nmax 0 (or_introl eq_refl)). Qed.
End newton_loop.

(** ** Arithmetic on finite values *)

Section finite_arithmetic.
Import np rv_utils.
Local Open Scope R_scope.

Lemma fgt_fin_false a b : fgt (Fin a) (Fin b) = false <-> a <= b.
Proof. simpl. destruct (Rlt_dec b a); split; (done || lra). Qed.

Lemma fgt_fin_true a b : fgt (Fin a) (Fin b) = true <-> b < a.
Proof. simpl. destruct (Rlt_dec b a); split; (done || lra). Qed.

Lemma kepler_slope_pos e E : Rabs e < 1 -> 0 < 1 - e * cos E.
Proof.
  intros He. pose proof (COS_bound E) as [? ?].
  assert (Rabs (cos E) <= 1) by (apply Rabs_le; lra).
  pose proof (Rle_abs (e * cos E)) as H2. rewrite Rabs_mult in H2.
  pose proof (Rabs_pos e). pose proof (Rabs_pos (cos E)). nra.
Qed.

Lemma newton_update_fin e M E :
  Rabs e < 1 ->
  newton_update (Fin e) (Fin M) (Fin E) = Fin (kepler_newton e M E).
Proof.
  intros He. pose proof (kepler_slope_pos e E He).
  unfold newton_update, kepler_newton, kepler_residual, fsub. simpl.
  destruct (Req_dec_T (1 + - (e * cos E)) 0); [lra|done].
Qed.

Lemma zip_with_fin (f : npfloat -> npfloat -> npfloat) (g : R -> R -> R) xs ys :
  (forall x y, f (Fin x) (Fin y) = Fin (g x y)) ->
  zip_with f (Fin <$> xs) (Fin <$> ys) = Fin <$> zip_with g xs ys.
Proof.
  intros Hfg. revert ys.
  induction xs as [|x xs IH]; intros [|y ys]; simpl; [done..|].
  by rewrite Hfg, IH.
Qed.

Lemma iterate_fin e Ms n :
  Rabs e < 1 ->
  iterate (Fin e) (Fin <$> Ms) n = Fin <$> kepler_iterate e Ms n.
Proof.
  intros He. induction n as [|n IH]; [done|].
  unfold iterate, kepler_iterate in *. simpl. rewrite IH.
  apply zip_with_fin. intros. by apply newton_update_fin.
Qed.

Lemma norm1_fin xs ys :
  norm1 (zip_with fsub (Fin <$> xs) (Fin <$> ys)) = Fin (l1_distance xs ys).
Proof.
  unfold l1_distance. revert ys.
  induction xs as [|x xs IH]; intros [|y ys]; simpl; [done..|].
  by rewrite IH.
Qed.

Lemma change_fin e Ms j :
  Rabs e < 1 ->
  change (Fin e) (Fin <$> Ms) j
  = Fin (l1_distance (kepler_iterate e Ms j) (kepler_iterate e Ms (pred j))).
Proof. intros He. unfold change. by rewrite !iterate_fin, norm1_fin. Qed.

Lemma kepler_iterate_length e Ms n : length (kepler_iterate e Ms n) = length Ms.
Proof.
  induction n as [|n IH]; [done|].
  unfold kepler_iterate in *. simpl. rewrite length_zip_with, IH. lia.
Qed.

Lemma tolerance_bounds : 0 < tolerance < 1.
Proof. unfold tolerance. lra. Qed.

End finite_arithmetic.

(** ** The Kepler solver [RV.true_anomaly] *)

Section kepler_solver.
Import np rv_utils.
Local Open Scope R_scope.

Lemma ea_to_ta_fin e E :
  Rabs e < 1 -> ea_to_ta (Fin e) (Fin E) = Fin (true_anomaly_of e E).
Proof.
  intros He. apply Rabs_def2 in He as [? ?].
  unfold ea_to_ta, true_anomaly_of, fsub. simpl.
  destruct (Req_dec_T 2 0); [lra|].
  destruct (Rlt_dec (1 + e) 0); [lra|].
  destruct (Rlt_dec (1 + - e) 0); [lra|]. done.
Qed.

Lemma true_anomaly_finite_values ma Ms ecc nmax :
  finite_values ma Ms -> Ms <> [] ->
  true_anomaly ma ecc nmax
  = ea ← newton_loop ecc (Fin <$> Ms) nmax 0 (Fin <$> Ms) (Fin <$> Ms);
    Ok (Array (ea_to_ta ecc <$> ea)).
Proof.
  intros [M|Ms'] Hne; [done|].
  unfold true_anomaly. simpl.
  destruct Ms'; [done|]. done.
Qed.

(** The solver on finite data, for [|e| < 1]: it returns the true
    anomalies of the first Newton iterate, the [j]-th say, that moved by
    no more than the tolerance, or raises [RuntimeError] when none of the
    iterates below the cap did. *)
Lemma true_anomaly_run e ma Ms nmax :
  Rabs e < 1 -> finite_values ma Ms -> Ms <> [] ->
  (exists j : nat,
      (1 <= j)%nat /\ (Z.of_nat j < nmax)%Z
      /\ true_anomaly ma (Fin e) nmax
         = Ok (Array (Fin <$> (true_anomaly_of e <$> kepler_iterate e Ms j)))
      /\ l1_distance (kepler_iterate e Ms j) (kepler_iterate e Ms (pred j))
         <= tolerance
      /\ forall i : nat, (1 <= i < j)%nat ->
           tolerance
           < l1_distance (kepler_iterate e Ms i) (kepler_iterate e Ms (pred i)))
  \/ (true_anomaly ma (Fin e) nmax = Raise RuntimeError
      /\ forall i : nat, (1 <= i)%nat -> (Z.of_nat i < nmax)%Z ->
           tolerance
           < l1_distance (kepler_iterate e Ms i) (kepler_iterate e Ms (pred i))).
Proof.
  intros He Hma Hne.
  rewrite (true_anomaly_finite_values _ _ _ _ Hma Hne).
  pose proof (newton_loop_start (Fin e) (Fin <$> Ms) nmax) as Hloop.
  destruct (newton_loop _ _ _ _ _ _) as [ea|err]; simpl in Hloop.
  - left. destruct Hloop as (j & _ & Hj1 & Hj2 & -> & Hj3 & Hj4).
    exists j. split; [done|]. split; [done|]. split; [|split].
    + simpl. rewrite iterate_fin by done. do 2 f_equal.
      rewrite <- !list_fmap_compose. apply list_fmap_ext.
      intros ? E _. simpl. by apply ea_to_ta_fin.
    + rewrite change_fin in Hj3 by done. by apply fgt_fin_false.
    + intros i Hi. specialize (Hj4 i ltac:(lia) ltac:(lia)).
      rewrite change_fin in Hj4 by done. by apply fgt_fin_true.
  - right. destruct Hloop as [-> Hall]. split; [done|].
    intros i Hi1 Hi2. specialize (Hall i ltac:(lia) Hi1 Hi2).
    rewrite change_fin in Hall by done. by apply fgt_fin_true.
Qed.

(** When the mean anomalies already solve Kepler's equation, every
    Newton iterate is the start. *)
Lemma kepler_iterate_fixed e Ms n :
  Forall (fun M => e * sin M = 0) Ms -> kepler_iterate e Ms n = Ms.
Proof.
  intros Hfix. induction n as [|n IH]; [done|].
  unfold kepler_iterate in *. simpl. rewrite IH. clear IH.
  induction Hfix as [|M Ms HM _ IH]; [done|]. simpl. rewrite IH. f_equal.
  unfold kepler_newton, kepler_residual. rewrite HM.
  replace (M - 0 - M) with 0 by lra. unfold Rdiv. lra.
Qed.

Lemma l1_distance_diag xs : l1_distance xs xs = 0.
Proof.
  unfold l1_distance. induction xs as [|x xs IH]; [done|]. simpl.
  rewrite IH, Rminus_diag, Rabs_R0. lra.
Qed.

Lemma true_anomaly_fixed e ma Ms nmax :
  Rabs e < 1 -> finite_values ma Ms -> Ms <> [] -> (2 <= nmax)%Z ->
  Forall (fun M => e * sin M = 0) Ms ->
  true_anomaly ma (Fin e) nmax = Ok (Array (Fin <$> (true_anomaly_of e <$> Ms))).
Proof.
  intros He Hma Hne Hcap Hfix. pose proof tolerance_bounds.
  destruct (true_anomaly_run e ma Ms nmax He Hma Hne)
    as [(j & _ & _ & -> & _)|[_ Hall]].
  - by rewrite kepler_iterate_fixed.
  - specialize (Hall 1%nat ltac:(lia) ltac:(lia)).
    rewrite !kepler_iterate_fixed, l1_distance_diag in Hall by done. lra.
Qed.

Lemma finite_values_values ma Ms : finite_values ma Ms -> values ma = Fin <$> Ms.
Proof. by intros [M|Ms']. Qed.

Lemma small_change_fin e Ms j :
  Rabs e < 1 ->
  small_change (Fin e) (Fin <$> Ms) j
  <-> l1_distance (kepler_iterate e Ms j) (kepler_iterate e Ms (pred j))
      <= tolerance.
Proof.
  intros He. unfold small_change. rewrite change_fin by done. split.
  - by intros (d & [= <-] & Hd).
  - intros Hd. eauto.
Qed.

Lemma ea_to_ta_nan e : ea_to_ta (Fin e) NaN = NaN.
Proof.
  unfold ea_to_ta. simpl.
  by destruct (Rlt_dec (1 + e) 0).
Qed.

End kepler_solver.

(** ** The [RV] model: evaluation at times *)

Section rv_model.
Import np rv_utils.
Local Open Scope R_scope.

Lemma bind_Ok {A B : Type} (a : A) (f : A -> result B) : (Ok a ≫= f) = f a.
Proof. reflexivity. Qed.

Lemma rv_at_times_unfold self k P e t0 g w t :
  orbital_elements self k P e t0 g w ->
  rv_at_times self t
  = ma ← mean_anomaly t (Fin t0) (Fin P);
    ta ← true_anomaly ma (Fin e) default_niterationmax;
    radial_velocity (Fin g) (Fin k) ta (Fin w) (Fin e).
Proof.
  intros (Hk & HP & He & Ht & Hg & Hw). unfold rv_at_times.
  rewrite Hk, HP, He, Ht, Hg, Hw. simpl.
  destruct (mean_anomaly t (Fin t0) (Fin P)) as [ma|]; [simpl|done].
  by destruct (true_anomaly ma (Fin e) default_niterationmax).
Qed.

Lemma mean_anomaly_fin t ts t0 P :
  P <> 0 -> finite_values t ts ->
  exists ma,
    mean_anomaly t (Fin t0) (Fin P) = Ok ma
    /\ finite_values ma ((fun x => 2 * PI * (x - t0) / P) <$> ts).
Proof.
  intros HP [x|xs]; unfold mean_anomaly, elementwise, fsub.
  - eexists. split; [done|]. simpl.
    destruct (Req_dec_T P 0); [done|]. apply (finite_scalar _).
  - exists (Array (Fin <$> ((fun x => 2 * PI * (x - t0) / P) <$> xs))).
    split; [|apply finite_array]. do 2 f_equal.
    rewrite <- !list_fmap_compose. apply list_fmap_ext.
    intros ? x _. simpl. by destruct (Req_dec_T P 0).
Qed.

Lemma radial_velocity_fin g k nus w e :
  radial_velocity (Fin g) (Fin k) (Array (Fin <$> nus)) (Fin w) (Fin e)
  = Ok (Array (Fin <$> ((fun nu => rv_equation g k nu w e) <$> nus))).
Proof.
  unfold radial_velocity, elementwise. by rewrite <- !list_fmap_compose.
Qed.

(** On a circular orbit with a nonzero period the evaluation returns,
    one value per time. *)
Lemma rv_at_times_circular self k P t0 g w t ts :
  orbital_elements self k P 0 t0 g w -> P <> 0 ->
  finite_values t ts -> ts <> [] ->
  rv_at_times self t
  = Ok (Array (Fin <$> ((fun x =>
         rv_equation g k (true_anomaly_of 0 (2 * PI * (x - t0) / P)) w 0)
         <$> ts))).
Proof.
  intros Hself HP Ht Hne.
  rewrite (rv_at_times_unfold _ _ _ _ _ _ _ _ Hself).
  destruct (mean_anomaly_fin t ts t0 P HP Ht) as (ma & -> & Hma).
  rewrite bind_Ok.
  rewrite (true_anomaly_fixed 0 ma _ default_niterationmax
             ltac:(rewrite Rabs_R0; lra) Hma); try done.
  - rewrite bind_Ok, radial_velocity_fin. by rewrite <- !list_fmap_compose.
  - by destruct ts.
  - apply Forall_forall. intros; lra.
Qed.

Lemma iterate_length ecc ma n : length (iterate ecc ma n) = length ma.
Proof.
  induction n as [|n IH]; [done|].
  unfold iterate in *. simpl. rewrite length_zip_with, IH. lia.
Qed.

Lemma true_anomaly_shape ma ecc nmax r :
  true_anomaly ma ecc nmax = Ok r ->
  exists a, r = Array a /\ length a = length (values ma).
Proof.
  assert (Hloop : forall xs ea,
             newton_loop ecc xs nmax 0 xs xs = Ok ea -> length ea = length xs).
  { intros xs ea Hea.
    pose proof (newton_loop_start ecc xs nmax) as H. rewrite Hea in H.
    destruct H as (j & _ & _ & _ & -> & _). apply iterate_length. }
  unfold true_anomaly. destruct ma as [x|a|l]; simpl; [| |done].
  - destruct (newton_loop ecc [x] nmax 0 [x] [x]) as [ea|] eqn:Hea; [|done].
    simpl. intros [= <-]. eexists. split; [done|].
    by rewrite length_fmap, (Hloop _ _ Hea).
  - destruct a as [|x a]; [done|]. simpl.
    destruct (newton_loop _ _ _ _ _ _) as [ea|] eqn:Hea; [|done].
    simpl. intros [= <-]. eexists. split; [done|].
    by rewrite length_fmap, (Hloop _ _ Hea).
Qed.

Lemma rv_at_times_shape_any self t r :
  rv_at_times self t = Ok r ->
  exists a, r = Array a /\ length a = length (values t).
Proof.
  unfold rv_at_times.
  destruct (as_float (tau self)) as [t0|]; [simpl|done].
  destruct (as_float (period self)) as [P|]; [simpl|done].
  destruct (mean_anomaly t t0 P) as [ma|] eqn:Hma; [simpl|done].
  destruct (as_float (ecc self)) as [e|]; [simpl|done].
  destruct (true_anomaly ma e default_niterationmax) as [ta|] eqn:Hta;
    [simpl|done].
  destruct (as_float (gamma self)) as [g|]; [simpl|done].
  destruct (as_float (semi_amp self)) as [k|]; [simpl|done].
  destruct (as_float (omega self)) as [w|]; [simpl|done].
  apply true_anomaly_shape in Hta as (a & -> & Hlen).
  simpl. intros [= <-]. eexists. split; [done|].
  rewrite length_fmap, Hlen.
  destruct t as [x|xs|l]; unfold mean_anomaly in Hma; simplify_eq/=; [done|].
  by rewrite length_fmap.
Qed.

Lemma true_anomaly_of_0 e : Rabs e < 1 -> true_anomaly_of e 0 = 0.
Proof.
  intros He. apply Rabs_def2 in He as [? ?].
  unfold true_anomaly_of, atan2.
  replace (0 / 2) with 0 by lra. rewrite sin_0, cos_0, Rmult_0_r, Rmult_1_r.
  assert (0 < sqrt (1 - e)) by (apply sqrt_lt_R0; lra).
  destruct (Rlt_dec 0 (sqrt (1 - e))); [|lra].
  unfold Rdiv. rewrite Rmult_0_l, atan_0. lra.
Qed.

Lemma rv_at_times_unit_rv :
  rv_at_times unit_rv (Scalar (Fin 0)) = Ok (Array [Fin 1]).
Proof.
  rewrite (rv_at_times_circular unit_rv 1 1 0 0 0 (Scalar (Fin 0)) [0]);
    [|by repeat split|lra|constructor|done].
  simpl. do 3 f_equal. unfold rv_equation.
  replace (2 * PI * (0 - 0) / 1) with 0 by lra.
  rewrite true_anomaly_of_0 by (rewrite Rabs_R0; lra).
  rewrite !Rplus_0_l, cos_0. f_equal. lra.
Qed.

Lemma rv_at_times_one_degree_rv :
  rv_at_times one_degree_rv (Scalar (Fin 0)) = Ok (Array [Fin (cos 1)]).
Proof.
  rewrite (rv_at_times_circular one_degree_rv 1 1 0 0 1 (Scalar (Fin 0)) [0]);
    [|by repeat split|lra|constructor|done].
  simpl. do 3 f_equal. unfold rv_equation.
  replace (2 * PI * (0 - 0) / 1) with 0 by lra.
  rewrite true_anomaly_of_0 by (rewrite Rabs_R0; lra).
  rewrite !Rplus_0_l. f_equal. lra.
Qed.

Lemma getitem_param_dict self :
  getitem (param_dict self) "mean_val" = Ok (gamma self)
  /\ getitem (param_dict self) "k1" = Ok (semi_amp self)
  /\ getitem (param_dict self) "omega" = Ok (omega self)
  /\ getitem (param_dict self) "eccentricity" = Ok (ecc self)
  /\ getitem (param_dict self) "tau" = Ok (tau self)
  /\ getitem (param_dict self) "period" = Ok (period self).
Proof.
  unfold getitem, param_dict.
  repeat split;
    repeat (rewrite lookup_insert_eq || rewrite lookup_insert_ne by done);
    done.
Qed.

(** [RV_from_params] on the model's own parameters evaluates the same
    pipeline as [rv_at_times], with omega converted to radians. *)
Lemma RV_from_params_param_dict self k P e t0 g w t :
  orbital_elements self k P e t0 g w ->
  RV_from_params t (param_dict self) false false
  = rv_curve_py (np_array t) (Fin g) (Fin k) (Fin (w * (PI / 180))) (Fin e)
      (Fin t0) (Fin P).
Proof.
  intros (Hk & HP & He & Ht & Hg & Hw). unfold RV_from_params.
  destruct (getitem_param_dict self) as (-> & -> & -> & -> & -> & ->).
  rewrite Hk, HP, He, Ht, Hg, Hw. reflexivity.
Qed.

Lemma RV_from_params_one_degree_rv :
  RV_from_params (Scalar (Fin 0)) (param_dict one_degree_rv) false false
  = Ok (Array [Fin (cos (1 * (PI / 180)))]).
Proof.
  rewrite (RV_from_params_param_dict _ 1 1 0 0 0 1) by (by repeat split).
  unfold rv_curve_py, np_array.
  destruct (mean_anomaly_fin (Scalar (Fin 0)) [0] 0 1 ltac:(lra)
              (finite_scalar 0)) as (ma & -> & Hma).
  rewrite bind_Ok.
  rewrite (true_anomaly_fixed 0 ma _ default_niterationmax
             ltac:(rewrite Rabs_R0; lra) Hma); try done.
  2:{ apply Forall_forall. intros; lra. }
  rewrite bind_Ok, radial_velocity_fin. simpl. do 3 f_equal.
  unfold rv_equation.
  replace (2 * PI * (0 - 0) / 1) with 0 by lra.
  rewrite true_anomaly_of_0 by (rewrite Rabs_R0; lra).
  rewrite !Rplus_0_l. f_equal. lra.
Qed.

(** [max_amp] reads [self.omega] in degrees: with [omega = 180] the
    periastron term is [e cos PI = - e]. *)
Example max_amp_reads_degrees :
  max_amp (RV__init__ (Some (VFloat (Fin 1))) (Some (VFloat (Fin 1)))
             (Some (VFloat (Fin (1 / 2)))) None None
             (Some (VFloat (Fin 180))) ∅)
  = Ok (Fin (3 / 2)).
Proof.
  unfold max_amp, fsub. simpl.
  destruct (Req_dec_T 180 0); [lra|]. simpl.
  replace (180 * PI / 180) with PI by lra. rewrite cos_PI.
  replace (1 * (1 + 1 / 2 * -1)) with (1 / 2) by lra.
  replace (1 * (1 + - (1 / 2 * -1))) with (3 / 2) by lra.
  rewrite !Rabs_pos_eq by lra.
  destruct (Rlt_dec (3 / 2) (1 / 2)); [lra|done].
Qed.

(** C2 (code defect).  [omega] is held in degrees ([max_amp] and
    [RV_from_params] convert it) and is to be converted to radians before
    the radial-velocity equation; [rv_at_times] passes [self.omega] on as
    it is.  For [RV(semi_amp=1, period=1, omega=1)] at [t = 0] (true
    anomaly 0) it returns [cos 1], where the claim and [RV_from_params] on
    the model's own parameters give the larger [cos (PI / 180)]. *)
Theorem rv_at_times_omega_not_converted :
  rv_at_times one_degree_rv (Scalar (Fin 0)) = Ok (Array [Fin (cos 1)])
  /\ RV_from_params (Scalar (Fin 0)) (param_dict one_degree_rv) false false
     = Ok (Array [Fin (cos (1 * (PI / 180)))])
  /\ cos 1 < cos (1 * (PI / 180)).
Proof.
  split; [apply rv_at_times_one_degree_rv|].
  split; [apply RV_from_params_one_degree_rv|apply cos_1_lt_cos_degree].
Qed.

(** C9 as stated fails: at the scalar time 0, [RV(semi_amp=1, period=1)]
    returns the one-element array [[1.]], not a scalar. *)
Lemma scalar_time_gives_array :
  rv_at_times unit_rv (Scalar (Fin 0)) = Ok (Array [Fin 1])
  /\ forall x, rv_at_times unit_rv (Scalar (Fin 0)) <> Ok (Scalar x).
Proof.
  rewrite rv_at_times_unit_rv. split; [done|]. by intros x.
Qed.

(** C9, amended.  Whatever [rv_at_times] returns is an array: of one
    element when the time is a number, of the length of the input when the
    times are an array; and it does return, on every circular orbit with a
    nonzero period and finite times. *)
Theorem rv_at_times_returns_arrays (self : RV) :
  (forall x r, rv_at_times self (Scalar x) = Ok r -> exists v, r = Array [v])
  /\ (forall a r, rv_at_times self (Array a) = Ok r ->
        exists b, r = Array b /\ length b = length a)
  /\ (forall k P t0 g w t ts,
        orbital_elements self k P 0 t0 g w -> P <> 0 ->
        finite_values t ts -> ts <> [] ->
        exists b, rv_at_times self t = Ok (Array b) /\ length b = length ts).
Proof.
  split; [|split].
  - intros x r Hr. apply rv_at_times_shape_any in Hr as (a & -> & Hlen).
    destruct a as [|v [|? ?]]; try done. by exists v.
  - intros a r Hr. by apply rv_at_times_shape_any in Hr.
  - intros k P t0 g w t ts Hself HP Ht Hne.
    rewrite (rv_at_times_circular _ _ _ _ _ _ _ _ Hself HP Ht Hne).
    eexists. split; [done|]. by rewrite !length_fmap.
Qed.

Lemma rv_at_times_returns_arrays_witness :
  rv_at_times unit_rv (Scalar (Fin 0)) = Ok (Array [Fin 1])
  /\ exists v, Array [Fin 1] = Array [v].
Proof.
  split; [exact rv_at_times_unit_rv|].
  exact (proj1 (rv_at_times_returns_arrays unit_rv) (Fin 0) (Array [Fin 1])
           rv_at_times_unit_rv).
Defined.

End rv_model.

(** ** A zero period *)

Section zero_period.
Import np rv_utils.
Local Open Scope R_scope.



Lemma newton_update_not_finite e m x :
  is_finite x = false -> newton_update (Fin e) m x = NaN.
Proof. by destruct x, m. Qed.

Lemma newton_updates_not_finite e xs ys :
  Forall (fun x => is_finite x = false) ys -> length ys = length xs ->
  zip_with (newton_update (Fin e)) xs ys = replicate (length xs) NaN.
Proof.
  intros Hys. revert xs.
  induction Hys as [|y ys Hy _ IH]; intros [|x xs] Hlen; try done.
  cbn [zip_with length replicate].
  rewrite newton_update_not_finite by done. f_equal. apply IH.
  by injection Hlen.
Qed.

Lemma iterate_not_finite e xs j :
  Forall (fun x => is_finite x = false) xs -> (1 <= j)%nat ->
  iterate (Fin e) xs j = replicate (length xs) NaN.
Proof.
  intros Hxs. induction j as [|j IH]; [lia|]. intros _.
  change (iterate (Fin e) xs (S j))
    with (zip_with (newton_update (Fin e)) xs (iterate (Fin e) xs j)).
  destruct j as [|j].
  - by apply newton_updates_not_finite.
  - rewrite IH by lia. apply newton_updates_not_finite.
    + by apply Forall_replicate.
    + by rewrite length_replicate.
Qed.

Lemma norm1_nan n ys :
  (1 <= n)%nat -> length ys = n ->
  norm1 (zip_with fsub (replicate n NaN) ys) = NaN.
Proof. intros Hn Hlen. destruct n, ys; simpl in *; (done || lia). Qed.

Lemma change_not_finite e xs j :
  Forall (fun x => is_finite x = false) xs -> xs <> [] -> (1 <= j)%nat ->
  change (Fin e) xs j = NaN.
Proof.
  intros Hxs Hne Hj. unfold change.
  rewrite iterate_not_finite by done.
  apply norm1_nan; [destruct xs; [done|simpl; lia]|apply iterate_length].
Qed.

Lemma true_anomaly_not_finite e ma nmax :
  (forall l, ma <> PyList l) -> values ma <> [] ->
  Forall (fun x => is_finite x = false) (values ma) -> (2 <= nmax)%Z ->
  true_anomaly ma (Fin e) nmax
  = Ok (Array (replicate (length (values ma)) NaN)).
Proof.
  intros Hl Hne Hma Hcap.
  assert (Hrun : true_anomaly ma (Fin e) nmax
                 = ea ← newton_loop (Fin e) (values ma) nmax 0 (values ma)
                        (values ma);
                   Ok (Array (ea_to_ta (Fin e) <$> ea))).
  { destruct ma as [x|[|x a]|l]; try done. by destruct (Hl l). }
  rewrite Hrun.
  pose proof (newton_loop_start (Fin e) (values ma) nmax) as Hloop.
  destruct (newton_loop _ _ _ _ _ _) as [ea|err]; simpl in Hloop.
  - destruct Hloop as (j & _ & Hj & _ & -> & _).
    rewrite iterate_not_finite by done. rewrite bind_Ok, fmap_replicate.
    by rewrite ea_to_ta_nan.
  - destruct Hloop as [_ Hall].
    specialize (Hall 1%nat ltac:(lia) ltac:(lia) ltac:(lia)).
    by rewrite change_not_finite in Hall.
Qed.






End zero_period.

(** ** Convergence of the solver *)

Section convergence.
Import np rv_utils.
Local Open Scope R_scope.

Lemma true_anomaly_infinite :
  true_anomaly (Array [PInf]) (Fin (1 / 2)) 10000 = Ok (Array [NaN]).
Proof. by rewrite true_anomaly_not_finite; [|done|done|repeat constructor|]. Qed.

(** C3 as stated fails on an infinite mean anomaly, at the eccentricity
    [0.5]: the first Newton step is [nan], the loop test is false on
    [nan], and the call returns [nan] without an error, although no pass
    had a change of at most [1e-5]. *)
Lemma infinite_anomaly_returns_nan :
  true_anomaly (Array [PInf]) (Fin (1 / 2)) 10000 = Ok (Array [NaN])
  /\ ~ converged_or_raises (Array [PInf]) (Fin (1 / 2)) 10000.
Proof.
  split; [apply true_anomaly_infinite|].
  intros [(j & Hj & _ & _ & d & Hd & _)|[Hres _]].
  - simpl in Hd.
    by rewrite change_not_finite in Hd; [|repeat constructor|done|done].
  - by rewrite true_anomaly_infinite in Hres.
Qed.

(** A pass whose change is small ends the loop when it comes before the
    cap. *)
Lemma true_anomaly_returns e ma Ms nmax j :
  Rabs e < 1 -> finite_values ma Ms -> Ms <> [] ->
  (1 <= j)%nat -> (Z.of_nat j < nmax)%Z ->
  small_change (Fin e) (values ma) j ->
  exists ta, true_anomaly ma (Fin e) nmax = Ok ta.
Proof.
  intros He Hma Hne Hj1 Hj2 Hsmall.
  rewrite (finite_values_values _ _ Hma) in Hsmall.
  apply small_change_fin in Hsmall; [|done].
  destruct (true_anomaly_run e ma Ms nmax He Hma Hne)
    as [(i & _ & _ & -> & _)|[_ Hall]]; [by eexists|].
  specialize (Hall j Hj1 Hj2). lra.
Qed.

(** C3, amended.  For an eccentricity with [|e| < 1] (in particular in
    [[0, 1)]) and finite mean anomalies, given as a number or as a
    non-empty array, and for every iteration cap: whatever [true_anomaly]
    returns is converged, the true anomalies of the iterate of a pass
    within the cap (and at least the first) whose change in L1 norm is at
    most [1e-5]; the only error it raises is [RuntimeError]; it raises it
    when no pass within the cap has so small a change; and it returns when
    a pass before the last one of the cap has. *)
Theorem true_anomaly_converged_or_raises (e : R) (ma : pyarg) (Ms : list R)
    (nmax : Z) :
  Rabs e < 1 -> finite_values ma Ms -> Ms <> [] ->
  (forall ta, true_anomaly ma (Fin e) nmax = Ok ta ->
     exists j : nat,
       (1 <= j)%nat /\ (Z.of_nat j <= nmax)%Z
       /\ ta = Array (ea_to_ta (Fin e) <$> iterate (Fin e) (values ma) j)
       /\ small_change (Fin e) (values ma) j)
  /\ (forall err, true_anomaly ma (Fin e) nmax = Raise err ->
        err = RuntimeError)
  /\ ((forall i : nat, (1 <= i)%nat -> (Z.of_nat i <= nmax)%Z ->
         ~ small_change (Fin e) (values ma) i) ->
      true_anomaly ma (Fin e) nmax = Raise RuntimeError)
  /\ (forall j : nat, (1 <= j)%nat -> (Z.of_nat j < nmax)%Z ->
        small_change (Fin e) (values ma) j ->
        exists ta, true_anomaly ma (Fin e) nmax = Ok ta).
Proof.
  intros He Hma Hne.
  assert (Hrun : (exists j : nat,
             (1 <= j)%nat /\ (Z.of_nat j < nmax)%Z
             /\ true_anomaly ma (Fin e) nmax
                = Ok (Array (ea_to_ta (Fin e) <$> iterate (Fin e) (values ma) j))
             /\ small_change (Fin e) (values ma) j)
          \/ true_anomaly ma (Fin e) nmax = Raise RuntimeError).
  { rewrite (finite_values_values _ _ Hma).
    destruct (true_anomaly_run e ma Ms nmax He Hma Hne)
      as [(j & Hj1 & Hj2 & Hres & Hd & _)|[Hres _]]; [left|by right].
    exists j. split; [done|]. split; [done|]. split.
    - rewrite Hres, iterate_fin by done. do 2 f_equal.
      rewrite <- !list_fmap_compose. apply list_fmap_ext.
      intros ? E _. simpl. by rewrite ea_to_ta_fin.
    - by apply small_change_fin. }
  split; [|split; [|split]].
  - intros ta Hta. destruct Hrun as [(j & Hj1 & Hj2 & Hres & Hsmall)|Hres].
    + exists j. rewrite Hres in Hta. injection Hta as <-.
      split; [done|]. split; [lia|]. by split.
    + by rewrite Hres in Hta.
  - intros err Herr. destruct Hrun as [(j & _ & _ & Hres & _)|Hres].
    + by rewrite Hres in Herr.
    + rewrite Hres in Herr. by injection Herr as <-.
  - intros Hnone. destruct Hrun as [(j & Hj1 & Hj2 & _ & Hsmall)|Hres]; [|done].
    destruct (Hnone j Hj1 ltac:(lia) Hsmall).
  - intros j Hj1 Hj2 Hsmall.
    by apply (true_anomaly_returns e ma Ms nmax j).
Qed.

Lemma true_anomaly_converged_or_raises_witness :
  Rabs 0 < 1 /\ finite_values (Scalar (Fin 1)) [1] /\ [1] <> []
  /\ small_change (Fin 0) (values (Scalar (Fin 1))) 1
  /\ exists ta, true_anomaly (Scalar (Fin 1)) (Fin 0) 10000 = Ok ta.
Proof.
  assert (H1 : Rabs 0 < 1) by (rewrite Rabs_R0; lra).
  assert (H2 : finite_values (Scalar (Fin 1)) [1]) by constructor.
  assert (H3 : [1] <> []) by done.
  assert (H4 : small_change (Fin 0) (values (Scalar (Fin 1))) 1).
  { apply (small_change_fin 0 [1] 1 H1).
    rewrite !kepler_iterate_fixed by (constructor; [lra|done]).
    rewrite l1_distance_diag. pose proof tolerance_bounds. lra. }
  split; [exact H1|]. split; [exact H2|]. split; [exact H3|].
  split; [exact H4|].
  exact (proj2 (proj2 (proj2 (true_anomaly_converged_or_raises 0
                                (Scalar (Fin 1)) [1] 10000 H1 H2 H3)))
           1%nat ltac:(lia) ltac:(lia) H4).
Defined.

End convergence.

(** ** Parameter ingestion and mode dispatch of [rv.main] *)

Section rv_main.
Import rv.
Variable py_float : string -> option float.

Lemma load_params_raises parameters lines e :
  load_params parameters lines = Raise e -> e = ValueError.
Proof.
  revert parameters.
  induction lines as [|l lines IH]; intros parameters; simpl; [done|].
  destruct (startswith_hash l); [apply IH|].
  destruct (split "=" (lower l)) as [|par [|val [|? ?]]];
    try (intros [= <-]; done).
  apply IH.
Qed.

Lemma dict_get_set_ne d k k' v :
  k <> k' -> dict_get (dict_set d k v) k' = dict_get d k'.
Proof.
  intros Hne. induction d as [|[k0 v0] d IH]; simpl.
  - by rewrite decide_False.
  - destruct (decide (k0 = k)) as [->|]; simpl.
    + by rewrite !decide_False.
    + destruct (decide (k0 = k')); [done|apply IH].
Qed.

(** Conversion to floats leaves every key outside [float_keys] alone. *)
Lemma to_floats_other keys parameters parameters' k :
  k ∉ float_keys ->
  to_floats py_float keys parameters = Ok parameters' ->
  dict_get parameters' k = dict_get parameters k.
Proof.
  intros Hk. revert parameters.
  induction keys as [|key keys IH]; intros parameters; simpl.
  - by intros [= ->].
  - case_bool_decide as Hkey; [|apply IH].
    destruct (getitem parameters key) as [v|]; simpl; [|done].
    destruct (float_of py_float v) as [f|]; simpl; [|done].
    intros H. rewrite (IH _ H). apply dict_get_set_ne. by intros ->.
Qed.

Lemma msini_not_float_key : "msini" ∉ float_keys.
Proof. apply (bool_decide_unpack _). by vm_compute. Qed.

(** Whatever the file, the value read for [msini] is the one the
    conversion loop hands on. *)
Lemma msini_never_converted lines loaded parameters :
  load_params [] lines = Ok loaded ->
  to_floats py_float (dict_keys loaded) loaded = Ok parameters ->
  dict_get parameters "msini" = dict_get loaded "msini".
Proof.
  intros _ H. eapply to_floats_other; [apply msini_not_float_key|apply H].
Qed.

Lemma ingest_raises lines e :
  ingest py_float lines = Raise e -> e <> NotImplementedError.
Proof.
  unfold ingest.
  destruct (load_params [] lines) as [d|e0] eqn:Hload; simpl.
  2:{ intros [= <-]. by rewrite (load_params_raises _ _ _ Hload). }
  assert (Hfl : forall keys d0 e1,
            to_floats py_float keys d0 = Raise e1 -> e1 <> NotImplementedError).
  { induction keys as [|key keys IH]; intros d0 e1; simpl; [done|].
    case_bool_decide; [|apply IH].
    unfold getitem. destruct (dict_get d0 key) as [v|]; simpl.
    - unfold float_of. destruct v as [s|f]; simpl; [|apply IH].
      destruct (py_float s); simpl; [apply IH|]. by intros [= <-].
    - by intros [= <-]. }
  destruct (to_floats py_float (dict_keys d) d) as [d'|e1] eqn:Hfloats; simpl.
  2:{ intros [= <-]. by eapply Hfl. }
  unfold add_k2. destruct (contains d' "k2"); [done|].
  unfold getitem.
  destruct (dict_get d' "k1") as [k1|]; simpl; [|by intros [= <-]].
  destruct (dict_get d' "m_star") as [m_star|]; simpl; [|by intros [= <-]].
  destruct (dict_get d' _) as [m|]; simpl; [|by intros [= <-]].
  unfold companion_amplitude.
  destruct m_star as [?|a], k1 as [?|b], m as [?|c]; simpl;
    try (by intros [= <-]).
  destruct (PrimFloat.eqb c 0); simpl; by intros [= <-].
Qed.

(** Whatever the file and the mode, [main] does not raise
    [NotImplementedError]. *)
Lemma main_never_NotImplementedError lines mode :
  main py_float lines mode <> Raise NotImplementedError.
Proof.
  unfold main.
  destruct (ingest py_float lines) as [d|e] eqn:Hingest; simpl.
  - by destruct (decide (mode = "phase")).
  - intros [= ->]. by eapply ingest_raises.
Qed.

(** A numeric key spelled as in the list is converted. *)
Example ingest_m_star_is_float :
  py_float "2" = Some 2%float ->
  ingest py_float [text_line "k2 = 1"; text_line "M_star = 2"]
  = Ok [("k2", VStr "1"); ("m_star", VFloat 2%float)].
Proof. intros H. vm_compute. by rewrite H. Qed.

End rv_main.

(** C5 (code defect).  In [time] mode [main] is to fail with a
    [NotImplementedError]; the statement [raise NotImplemented] names the
    constant [NotImplemented], not the exception class, so on a parameter
    file that passes ingestion the call fails with [TypeError]. *)
Theorem main_time_mode_raises_TypeError :
  forall py_float : string -> option float,
    rv.main py_float [rv.text_line "k2 = 1"] "time" = Raise TypeError
    /\ rv.main py_float [rv.text_line "k2 = 1"] "time"
       <> Raise NotImplementedError.
Proof. intros py_float. split; by vm_compute. Qed.

(** C6 (code defect).  The list of numeric keys spells [msini] with a
    trailing blank, which no stripped key can equal: a supplied [msini]
    keeps its string value and is not converted to a float. *)
Theorem ingest_msini_stays_str :
  forall py_float : string -> option float,
    rv.ingest py_float [rv.text_line "k2 = 1"; rv.text_line "msini = 5"]
    = Ok [("k2", rv.VStr "1"); ("msini", rv.VStr "5")].
Proof. intros py_float. by vm_compute. Qed.

(** ** Construction of an [RV] model from a mapping *)

Section rv_construction.
Import rv_utils.

Lemma param_dict_lookup_other self k :
  k ∉ own_keys -> param_dict self !! k = None.
Proof.
  unfold own_keys, param_dict. intros Hk.
  repeat (rewrite lookup_insert_ne; [|intros <-; apply Hk; set_solver]).
  apply lookup_empty.
Qed.

(** Whatever the mapping, the model built by [from_dict] has exactly one
    entry besides the six orbital ones: the whole mapping, under the key
    [other_params]. *)
Lemma from_dict_params mapping self k :
  from_dict mapping = Ok self ->
  k ∉ own_keys ->
  params self !! k
  = if decide (k = "other_params") then Some (VDict mapping) else None.
Proof.
  unfold from_dict, getitem. intros H Hk.
  repeat match type of H with
         | context [mapping !! ?key] =>
             destruct (mapping !! key); simpl in H; [|done]
         end.
  injection H as <-. simpl.
  rewrite lookup_union, param_dict_lookup_other by done.
  case_decide as Heq.
  - subst k. by rewrite lookup_singleton_eq.
  - rewrite lookup_singleton_ne by done. done.
Qed.

(** The constructor itself keeps extra keyword arguments at the top
    level of [params]. *)
Lemma RV__init__keeps_keywords a b c d e f other k v :
  other !! k = Some v ->
  params (RV__init__ a b c d e f other) !! k = Some v.
Proof. intros H. simpl. by rewrite lookup_union, H, union_Some_l. Qed.

End rv_construction.

(** C7 (code defect).  [from_dict] is to keep every unrecognised key of
    the mapping as a top-level entry of [params]; it passes the mapping as
    one keyword argument named [other_params], so the extra key [k2] of the
    mapping is absent from the top level and the whole mapping sits under
    the key [other_params]. *)
Theorem from_dict_nests_extra_keys :
  exists self : rv_utils.RV,
    rv_utils.from_dict rv_utils.example_mapping = Ok self
    /\ rv_utils.example_mapping !! "k2" = Some (rv_utils.VFloat (np.Fin 5))
    /\ rv_utils.params self !! "k2" = None
    /\ rv_utils.params self !! "other_params"
       = Some (rv_utils.VDict rv_utils.example_mapping).
Proof.
  eexists. split; [reflexivity|]. split; [reflexivity|].
  split; reflexivity.
Qed.

(** ** Companion amplitude *)

(** C8.  For a nonzero companion mass, [companion_amplitude] (in
    [rv_utils.py] and in [rv.py]) returns
    [-k_host * (m_host * 1047.56) / m_companion], and
    [companion_amplitude(10, 1, 1047.56)] is exactly [-10.0] in binary64
    arithmetic. *)
Theorem companion_amplitude_spec :
  (forall k_host m_host m_companion : float,
      PrimFloat.eqb m_companion 0%float = false ->
      let expected :=
        PrimFloat.div
          (PrimFloat.mul (PrimFloat.opp k_host)
                         (PrimFloat.mul m_host 1047.56%float))
          m_companion in
      rv_utils.companion_amplitude k_host m_host m_companion = Ok expected
      /\ rv.companion_amplitude (rv.VFloat k_host) (rv.VFloat m_host)
           (rv.VFloat m_companion) = Ok (rv.VFloat expected))
  /\ rv_utils.companion_amplitude 10%float 1%float 1047.56%float
     = Ok (-10)%float
  /\ rv.companion_amplitude (rv.VFloat 10%float) (rv.VFloat 1%float)
       (rv.VFloat 1047.56%float) = Ok (rv.VFloat (-10)%float).
Proof.
  split; [|split; reflexivity].
  intros k_host m_host m_companion Hnz. simpl.
  unfold rv_utils.companion_amplitude, rv.companion_amplitude,
    rv_utils.sun_jupiter_mass, rv.sun_jupiter_mass. simpl.
  by rewrite Hnz.
Qed.

Lemma companion_amplitude_spec_witness :
  PrimFloat.eqb 1047.56%float 0%float = false
  /\ rv_utils.companion_amplitude 10%float 1%float 1047.56%float
     = Ok (PrimFloat.div
             (PrimFloat.mul (PrimFloat.opp 10%float)
                            (PrimFloat.mul 1%float 1047.56%float))
             1047.56%float).
Proof.
  split; [reflexivity|].
  apply (proj1 companion_amplitude_spec 10%float 1%float 1047.56%float).
  reflexivity.
Defined.

(** * Further properties of the code *)

(** ** [RV_from_params] on finite parameters *)

Section rv_from_finite_params.
Import np rv_utils.
Local Open Scope R_scope.

Lemma RV_from_params_finite params g k w e t0 P t ignore_mean :
  finite_params params g k w e t0 P ->
  RV_from_params t params ignore_mean false
  = rv_curve_py (np_array t) (Fin (if ignore_mean then 0 else g)) (Fin k)
      (Fin (w * (PI / 180))) (Fin e) (Fin t0) (Fin P).
Proof.
  intros (Hg & Hk & Hw & He & Ht & HP). unfold RV_from_params, getitem.
  rewrite Hg, Hk, Hw, He, Ht, HP. by destruct ignore_mean.
Qed.

Lemma RV_from_params_companion params g k k2 w e t0 P t ignore_mean :
  finite_params params g k w e t0 P ->
  params !! "k2" = Some (VFloat (Fin k2)) ->
  RV_from_params t params ignore_mean true
  = rv_curve_py (np_array t) (Fin (if ignore_mean then 0 else g)) (Fin k2)
      (Fin (w * (PI / 180))) (Fin e) (Fin t0) (Fin P).
Proof.
  intros (Hg & Hk & Hw & He & Ht & HP) Hk2. unfold RV_from_params, getitem.
  rewrite Hg, Hk2, Hw, He, Ht, HP. by destruct ignore_mean.
Qed.

Lemma finite_params_param_dict self k P e t0 g w :
  orbital_elements self k P e t0 g w ->
  finite_params (param_dict self) g k w e t0 P.
Proof.
  intros (Hk & HP & He & Ht & Hg & Hw). unfold finite_params, param_dict.
  rewrite <- Hk, <- HP, <- He, <- Ht, <- Hg, <- Hw.
  repeat split;
    repeat (rewrite lookup_insert_eq || rewrite lookup_insert_ne by done);
    done.
Qed.

End rv_from_finite_params.

(** ** Periastron *)

Section periastron.
Import np rv_utils.
Local Open Scope R_scope.

Lemma rv_at_times_at self k P e t0 g w t x E :
  orbital_elements self k P e t0 g w -> P <> 0 -> Rabs e < 1 ->
  finite_values t [x] ->
  2 * PI * (x - t0) / P = E -> e * sin E = 0 ->
  rv_at_times self t
  = Ok (Array [Fin (rv_equation g k (true_anomaly_of e E) w e)]).
Proof.
  intros Hself HP He Ht HE Hfix.
  rewrite (rv_at_times_unfold _ _ _ _ _ _ _ _ Hself).
  destruct (mean_anomaly_fin t [x] t0 P HP Ht) as (ma & -> & Hma).
  rewrite bind_Ok. simpl in Hma. rewrite HE in Hma.
  rewrite (true_anomaly_fixed e ma [E] default_niterationmax He Hma);
    [|done|done|by constructor].
  by rewrite bind_Ok, radial_velocity_fin.
Qed.

(** X4.  At the time of periastron, [t = tau] or phase 0, the mean anomaly
    is 0, the solver stops after its first pass without raising, and the
    call returns what [radial_velocity] gives at the true anomaly 0:
    [radial_velocity(gamma, k, [0.], omega, ecc)]. *)
Theorem rv_at_periastron (self : RV) (k P e t0 g w : R) :
  orbital_elements self k P e t0 g w -> P <> 0 -> Rabs e < 1 ->
  rv_at_times self (Scalar (Fin t0))
  = radial_velocity (Fin g) (Fin k) (Array [Fin 0]) (Fin w) (Fin e)
  /\ rv_at_phase self (Scalar (Fin 0))
     = radial_velocity (Fin g) (Fin k) (Array [Fin 0]) (Fin w) (Fin e).
Proof.
  intros Hself HP He.
  assert (Htau : rv_at_times self (Scalar (Fin t0))
                 = radial_velocity (Fin g) (Fin k) (Array [Fin 0]) (Fin w)
                     (Fin e)).
  { rewrite (rv_at_times_at self k P e t0 g w _ t0 0 Hself HP He);
      [|constructor|by field|rewrite sin_0; lra].
    rewrite true_anomaly_of_0 by done.
    symmetry. exact (radial_velocity_fin g k [0] w e). }
  split; [exact Htau|].
  rewrite <- Htau. unfold rv_at_phase.
  destruct Hself as (Hk & HP' & Hecc & Ht0 & Hg & Hw). rewrite HP', Ht0.
  cbn [as_float]. rewrite !bind_Ok. cbn [elementwise]. rewrite bind_Ok.
  do 3 f_equal. unfold fadd, fmul. f_equal. lra.
Qed.

Lemma rv_at_periastron_witness :
  orbital_elements unit_rv 1 1 0 0 0 0 /\ 1 <> 0 /\ Rabs 0 < 1
  /\ rv_at_times unit_rv (Scalar (Fin 0))
     = radial_velocity (Fin 0) (Fin 1) (Array [Fin 0]) (Fin 0) (Fin 0).
Proof.
  assert (H1 : orbital_elements unit_rv 1 1 0 0 0 0) by (by repeat split).
  assert (H2 : 1 <> 0) by lra.
  assert (H3 : Rabs 0 < 1) by (rewrite Rabs_R0; lra).
  split; [exact H1|]. split; [exact H2|]. split; [exact H3|].
  exact (proj1 (rv_at_periastron unit_rv 1 1 0 0 0 0 H1 H2 H3)).
Defined.

End periastron.

(** ** One full phase *)

Section full_phase.
Import np rv_utils.
Local Open Scope R_scope.

(** The times at which [rv_at_phase] evaluates finite phases. *)
Lemma rv_at_phase_fin self k P e t0 g w phase ps :
  orbital_elements self k P e t0 g w -> finite_values phase ps ->
  exists t,
    rv_at_phase self phase = rv_at_times self t
    /\ finite_values t ((fun p => p * P + t0) <$> ps).
Proof.
  intros Hself Hphase. unfold rv_at_phase.
  destruct Hself as (_ & -> & _ & -> & _). cbn [as_float]. rewrite !bind_Ok.
  destruct Hphase as [p|ps]; cbn [elementwise]; rewrite bind_Ok.
  - eexists. split; [done|]. apply (finite_scalar (p * P + t0)).
  - eexists. split; [done|]. rewrite <- list_fmap_compose.
    rewrite (list_fmap_compose (fun p => p * P + t0) Fin).
    apply finite_array.
Qed.

(** The samples of [np.linspace(0, 1, num)] are [num] finite values. *)
Lemma linspace01_samples num :
  (1 <= num)%Z ->
  exists xs : list R,
    linspace01 num = Ok (Fin <$> xs) /\ length xs = Z.to_nat num.
Proof.
  intros Hnum. unfold linspace01.
  destruct (num <? 0)%Z eqn:Hneg; [lia|].
  set (n := Z.to_nat num).
  destruct (0 <? num - 1)%Z eqn:Hdiv.
  - assert ((1 <? num)%Z = true) as -> by lia.
    set (step := 1 / IZR (num - 1)).
    exists (<[Z.to_nat (num - 1) := 1]>
              ((fun i : nat => INR i * step + 0) <$> seq 0 n)).
    split.
    + rewrite list_fmap_insert. do 2 f_equal.
      rewrite <- list_fmap_compose. apply list_fmap_ext.
      intros ? i _. simpl.
      destruct (Req_dec_T (IZR (num - 1)) 0) as [H0|_]; [|done].
      apply eq_IZR in H0. lia.
    + by rewrite length_insert, length_fmap, length_seq.
  - assert (num = 1%Z) as -> by lia.
    assert ((1 <? 1)%Z = false) as -> by done.
    by exists [INR 0 * 1 + 0].
Qed.

(** On finite data, with a nonzero period and [|e| < 1], an evaluation
    returns one finite value per time or raises the convergence error. *)
Lemma rv_at_times_finite self k P e t0 g w t ts :
  orbital_elements self k P e t0 g w -> P <> 0 -> Rabs e < 1 ->
  finite_values t ts -> ts <> [] ->
  rv_at_times self t = Raise RuntimeError
  \/ exists vs : list R,
       rv_at_times self t = Ok (Array (Fin <$> vs))
       /\ length vs = length ts.
Proof.
  intros Hself HP He Ht Hne.
  rewrite (rv_at_times_unfold _ _ _ _ _ _ _ _ Hself).
  destruct (mean_anomaly_fin t ts t0 P HP Ht) as (ma & -> & Hma).
  rewrite bind_Ok.
  destruct (true_anomaly_run e ma _ default_niterationmax He Hma)
    as [(j & _ & _ & -> & _)|[-> _]]; [by destruct ts| |by left].
  right. rewrite bind_Ok, radial_velocity_fin. eexists. split; [done|].
  by rewrite !length_fmap, kepler_iterate_length, length_fmap.
Qed.

(** X6.  [rv_full_phase] raises [ValueError] when [points] is not
    positive (negative: [np.linspace] refuses it; zero: the solver's test
    for an empty array).  For [points >= 1] whatever it returns is an
    array of [points] values, the only error it raises is the convergence
    error, and on a circular orbit it returns. *)
Theorem rv_full_phase_shape (self : RV) (k P e t0 g w c : R) (points : Z) :
  orbital_elements self k P e t0 g w -> P <> 0 -> Rabs e < 1 ->
  ((points <= 0)%Z -> rv_full_phase self (Fin c) points = Raise ValueError)
  /\ ((1 <= points)%Z ->
      (forall r, rv_full_phase self (Fin c) points = Ok r ->
         exists vs, r = Array vs /\ length vs = Z.to_nat points)
      /\ (forall err, rv_full_phase self (Fin c) points = Raise err ->
            err = RuntimeError)
      /\ (e = 0 ->
          exists vs, rv_full_phase self (Fin c) points = Ok (Array vs)
                     /\ length vs = Z.to_nat points)).
Proof.
  intros Hself HP He. split.
  - intros Hpoints. unfold rv_full_phase, linspace01.
    destruct (points <? 0)%Z eqn:Hneg; [done|].
    assert (points = 0%Z) as -> by lia.
    destruct Hself as (Hk & HP' & Hecc & Htau & Hg & Hw).
    unfold rv_at_phase, rv_at_times. rewrite HP', Htau, Hecc. done.
  - intros Hpoints. unfold rv_full_phase.
    destruct (linspace01_samples points Hpoints) as (xs & -> & Hlen).
    rewrite bind_Ok.
    set (phase := (fun x => x + c) <$> xs).
    match goal with
    | |- context [rv_at_phase self ?ph] =>
        replace ph with (Array (Fin <$> phase))
          by (unfold phase; by rewrite <- !list_fmap_compose)
    end.
    destruct (rv_at_phase_fin self k P e t0 g w _ _ Hself (finite_array phase))
      as (t & -> & Ht).
    set (ts := (fun p => p * P + t0) <$> phase) in *.
    assert (Hts : length ts = Z.to_nat points)
      by (unfold ts, phase; by rewrite !length_fmap).
    assert (Hne : ts <> []).
    { intros Hnil. rewrite Hnil in Hts. simpl in Hts. lia. }
    split; [|split].
    + intros r Hr.
      destruct (rv_at_times_finite self k P e t0 g w t ts Hself HP He Ht Hne)
        as [Hraise|(vs & Hvs & Hlen')]; [by rewrite Hraise in Hr|].
      rewrite Hvs in Hr. injection Hr as <-. eexists. split; [done|].
      by rewrite length_fmap, Hlen'.
    + intros err Herr.
      destruct (rv_at_times_finite self k P e t0 g w t ts Hself HP He Ht Hne)
        as [Hraise|(vs & Hvs & _)]; [|by rewrite Hvs in Herr].
      rewrite Hraise in Herr. by injection Herr as <-.
    + intros ->.
      rewrite (rv_at_times_circular _ _ _ _ _ _ _ _ Hself HP Ht Hne).
      eexists. split; [done|]. by rewrite !length_fmap.
Qed.

Lemma rv_full_phase_shape_witness :
  orbital_elements unit_rv 1 1 0 0 0 0 /\ 1 <> 0 /\ Rabs 0 < 1
  /\ (1 <= 100)%Z
  /\ exists vs, rv_full_phase unit_rv (Fin 0) 100 = Ok (Array vs)
                /\ length vs = Z.to_nat 100.
Proof.
  assert (H1 : orbital_elements unit_rv 1 1 0 0 0 0) by (by repeat split).
  assert (H2 : 1 <> 0) by lra.
  assert (H3 : Rabs 0 < 1) by (rewrite Rabs_R0; lra).
  assert (H4 : (1 <= 100)%Z) by lia.
  split; [exact H1|]. split; [exact H2|]. split; [exact H3|].
  split; [exact H4|].
  exact (proj2 (proj2 (proj2 (rv_full_phase_shape unit_rv 1 1 0 0 0 0 0 100
                                H1 H2 H3) H4)) eq_refl).
Defined.

End full_phase.

(** ** Edges of the solver and of its callers *)

Section solver_edges.
Import np rv_utils.
Local Open Scope R_scope.

(** X7.  With an iteration cap of 1 or less the solver raises its
    [RuntimeError] for every number or non-empty array and every
    eccentricity: the first pass always runs, and the cap is tested right
    after it, before convergence is. *)
Theorem true_anomaly_cap_of_one (ma : pyarg) (ecc : npfloat) (nmax : Z) :
  (forall l, ma <> PyList l) -> values ma <> [] -> (nmax <= 1)%Z ->
  true_anomaly ma ecc nmax = Raise RuntimeError.
Proof.
  intros Hl Hne Hcap. unfold true_anomaly.
  assert (newton_loop ecc (values ma) nmax 0 (values ma) (values ma)
          = Raise RuntimeError) as Hloop.
  { apply newton_loop_cap; [apply orb_true_r|lia]. }
  destruct ma as [x|[|x a]|l]; try done.
  - by rewrite Hloop.
  - cbn [values length Nat.eqb]. cbn [values] in Hloop. by rewrite Hloop.
  - by destruct (Hl l).
Qed.

Lemma true_anomaly_cap_of_one_witness :
  (forall l, Scalar (Fin 0) <> PyList l) /\ values (Scalar (Fin 0)) <> []
  /\ (1 <= 1)%Z
  /\ true_anomaly (Scalar (Fin 0)) (Fin 0) 1 = Raise RuntimeError.
Proof.
  assert (H1 : forall l, Scalar (Fin 0) <> PyList l) by done.
  assert (H2 : values (Scalar (Fin 0)) <> []) by done.
  assert (H3 : (1 <= 1)%Z) by lia.
  split; [exact H1|]. split; [exact H2|]. split; [exact H3|].
  exact (true_anomaly_cap_of_one (Scalar (Fin 0)) (Fin 0) 1 H1 H2 H3).
Defined.

Lemma atan2_range y x : - PI < atan2 y x <= PI.
Proof.
  pose proof PI_RGT_0. unfold atan2.
  pose proof (atan_bound (y / x)) as [Hlo Hhi].
  destruct (Rlt_dec 0 x); [lra|].
  destruct (Rlt_dec x 0) as [Hx|Hx].
  - destruct (Rlt_dec y 0) as [Hy|Hy].
    + assert (0 < y / x).
      { unfold Rdiv. replace (y * / x) with ((- y) * / (- x)) by (field; lra).
        apply Rmult_lt_0_compat; [lra|]. apply Rinv_0_lt_compat. lra. }
      pose proof (atan_increasing 0 (y / x) ltac:(done)) as Hinc.
      rewrite atan_0 in Hinc. lra.
    + assert (y / x <= 0).
      { unfold Rdiv. replace (y * / x) with (- (y * / (- x))) by (field; lra).
        assert (0 < / - x) by (apply Rinv_0_lt_compat; lra). nra. }
      assert (atan (y / x) <= 0).
      { destruct (Req_dec (y / x) 0) as [->|Hne]; [rewrite atan_0; lra|].
        pose proof (atan_increasing (y / x) 0 ltac:(lra)) as Hinc.
        rewrite atan_0 in Hinc. lra. }
      lra.
  - destruct (Rlt_dec 0 y); [lra|]. destruct (Rlt_dec y 0); lra.
Qed.

(** X8.  What [true_anomaly] returns for [|e| < 1] and finite mean
    anomalies is one angle per mean anomaly, each in [(-2 pi, 2 pi]]. *)
Theorem true_anomaly_range (e : R) (ma : pyarg) (Ms : list R) (nmax : Z) :
  Rabs e < 1 -> finite_values ma Ms -> Ms <> [] ->
  true_anomaly ma (Fin e) nmax = Raise RuntimeError
  \/ exists nus : list R,
       true_anomaly ma (Fin e) nmax = Ok (Array (Fin <$> nus))
       /\ length nus = length Ms
       /\ Forall (fun nu => - (2 * PI) < nu <= 2 * PI) nus.
Proof.
  intros He Hma Hne.
  destruct (true_anomaly_run e ma Ms nmax He Hma Hne)
    as [(j & _ & _ & -> & _)|[-> _]]; [right|by left].
  eexists. split; [done|].
  split; [by rewrite length_fmap, kepler_iterate_length|].
  apply Forall_fmap, Forall_forall. intros E _. simpl.
  unfold true_anomaly_of.
  pose proof (atan2_range (sqrt (1 + e) * sin (E / 2))
                (sqrt (1 - e) * cos (E / 2))). lra.
Qed.

Lemma true_anomaly_range_witness :
  Rabs (9 / 10) < 1 /\ finite_values (Scalar (Fin PI)) [PI] /\ [PI] <> []
  /\ (true_anomaly (Scalar (Fin PI)) (Fin (9 / 10)) 10000 = Raise RuntimeError
      \/ exists nus : list R,
           true_anomaly (Scalar (Fin PI)) (Fin (9 / 10)) 10000
           = Ok (Array (Fin <$> nus))
           /\ length nus = length [PI]
           /\ Forall (fun nu => - (2 * PI) < nu <= 2 * PI) nus).
Proof.
  assert (H1 : Rabs (9 / 10) < 1) by (apply Rabs_def1; lra).
  assert (H2 : finite_values (Scalar (Fin PI)) [PI]) by constructor.
  assert (H3 : [PI] <> []) by done.
  split; [exact H1|]. split; [exact H2|]. split; [exact H3|].
  exact (true_anomaly_range (9 / 10) (Scalar (Fin PI)) [PI] 10000 H1 H2 H3).
Defined.

(** X9.  [rv_at_times] and [rv_at_phase] refuse a Python list with
    [TypeError] and an empty array with [ValueError].  [RV_from_params]
    converts its argument with [np.array] first: a list gives what the
    array gives, and the empty list [ValueError]. *)
Theorem rv_at_times_rejects_lists_and_empty (self : RV) (k P e t0 g w : R) :
  orbital_elements self k P e t0 g w ->
  (forall l, rv_at_times self (PyList l) = Raise TypeError)
  /\ rv_at_times self (Array []) = Raise ValueError
  /\ (forall l, rv_at_phase self (PyList l) = Raise TypeError)
  /\ rv_at_phase self (Array []) = Raise ValueError
  /\ (forall l ignore_mean,
        RV_from_params (PyList l) (param_dict self) ignore_mean false
        = RV_from_params (Array l) (param_dict self) ignore_mean false)
  /\ (forall ignore_mean,
        RV_from_params (PyList []) (param_dict self) ignore_mean false
        = Raise ValueError).
Proof.
  intros Hself.
  pose proof (finite_params_param_dict _ _ _ _ _ _ _ Hself) as Hparams.
  destruct Hself as (Hk & HP & Hecc & Htau & Hg & Hw).
  unfold rv_at_phase, rv_at_times. rewrite HP, Htau, Hecc.
  repeat split; try done.
  intros im. by rewrite (RV_from_params_finite _ _ _ _ _ _ _ _ _ Hparams).
Qed.

Lemma rv_at_times_rejects_lists_and_empty_witness :
  orbital_elements default_rv 0 0 0 0 0 0
  /\ rv_at_times default_rv (Array []) = Raise ValueError.
Proof.
  assert (H : orbital_elements default_rv 0 0 0 0 0 0) by (by repeat split).
  split; [exact H|].
  exact (proj1 (proj2 (rv_at_times_rejects_lists_and_empty default_rv
                         0 0 0 0 0 0 H))).
Defined.

End solver_edges.

(** ** Mappings written and read by the model *)

Section rv_dictionaries.
Import np rv_utils.
Local Open Scope R_scope.

(** X10.  [from_dict] accepts the mapping [param_dict] writes: the
    model it builds has the same six orbital elements and the same
    [param_dict], and its [params] holds, besides them, the whole mapping
    under the key [other_params]. *)
Theorem from_dict_param_dict_round_trip (self : RV) :
  exists self' : RV,
    from_dict (param_dict self) = Ok self'
    /\ semi_amp self' = semi_amp self /\ period self' = period self
    /\ ecc self' = ecc self /\ tau self' = tau self
    /\ gamma self' = gamma self /\ omega self' = omega self
    /\ param_dict self' = param_dict self
    /\ params self' = <["other_params" := VDict (param_dict self)]>
                        (param_dict self).
Proof.
  unfold from_dict.
  destruct (getitem_param_dict self) as (-> & -> & -> & -> & -> & ->).
  rewrite !bind_Ok. eexists. split; [done|]. cbn.
  repeat split.
Qed.

Lemma from_dict_ok mapping self :
  from_dict mapping = Ok self ->
  mapping !! "k1" = Some (semi_amp self)
  /\ mapping !! "period" = Some (period self)
  /\ mapping !! "eccentricity" = Some (ecc self)
  /\ mapping !! "tau" = Some (tau self)
  /\ mapping !! "mean_val" = Some (gamma self)
  /\ mapping !! "omega" = Some (omega self).
Proof.
  unfold from_dict, getitem. intros H.
  repeat match type of H with
         | context [mapping !! ?key] =>
             destruct (mapping !! key); simpl in H; [|done]
         end.
  by injection H as <-.
Qed.

(** X11.  [from_dict] depends on six keys only: it succeeds when
    [k1], [period], [eccentricity], [tau], [mean_val] and [omega] are all
    present, with the fields the mapping gives them, and otherwise raises
    [KeyError] for one of them that is missing; it raises nothing else. *)
Theorem from_dict_needs_the_six_keys (mapping : gmap string pyval) :
  (forall self, from_dict mapping = Ok self ->
     mapping !! "k1" = Some (semi_amp self)
     /\ mapping !! "period" = Some (period self)
     /\ mapping !! "eccentricity" = Some (ecc self)
     /\ mapping !! "tau" = Some (tau self)
     /\ mapping !! "mean_val" = Some (gamma self)
     /\ mapping !! "omega" = Some (omega self))
  /\ (forall e, from_dict mapping = Raise e ->
        exists key, key ∈ own_keys /\ e = KeyError key
                    /\ mapping !! key = None)
  /\ ((forall key, key ∈ own_keys -> is_Some (mapping !! key)) ->
      exists self, from_dict mapping = Ok self).
Proof.
  split; [apply from_dict_ok|]. split.
  - unfold from_dict, getitem, own_keys. intros e H.
    repeat match type of H with
           | context [mapping !! ?key] =>
               destruct (mapping !! key) eqn:?; simpl in H;
               [|injection H as <-; exists key; split; [set_solver|done]]
           end.
    done.
  - unfold from_dict, getitem, own_keys. intros Hall.
    repeat match goal with
           | |- context [mapping !! ?key] =>
               destruct (Hall key ltac:(set_solver)) as [? ->]; simpl
           end.
    by eexists.
Qed.

Lemma example_mapping_has_own_keys :
  forall key, key ∈ own_keys -> is_Some (example_mapping !! key).
Proof.
  intros key Hkey. unfold own_keys in Hkey.
  repeat (apply elem_of_cons in Hkey as [->|Hkey]; [by eexists|]).
  by apply elem_of_nil in Hkey.
Qed.

Lemma from_dict_needs_the_six_keys_witness :
  (forall key, key ∈ own_keys -> is_Some (example_mapping !! key))
  /\ exists self, from_dict example_mapping = Ok self.
Proof.
  split; [exact example_mapping_has_own_keys|].
  exact (proj2 (proj2 (from_dict_needs_the_six_keys example_mapping))
           example_mapping_has_own_keys).
Defined.

End rv_dictionaries.

(** ** Errors of [RV_from_params] *)

Section rv_from_params.
Import np rv_utils.
Local Open Scope R_scope.

Lemma newton_loop_raises ecc ma nmax e :
  newton_loop ecc ma nmax 0 ma ma = Raise e -> e = RuntimeError.
Proof.
  intros H. pose proof (newton_loop_start ecc ma nmax) as Hloop.
  rewrite H in Hloop. by destruct Hloop.
Qed.

Lemma true_anomaly_raises ma ecc nmax e :
  true_anomaly ma ecc nmax = Raise e ->
  e = TypeError \/ e = ValueError \/ e = RuntimeError.
Proof.
  unfold true_anomaly. destruct ma as [x|a|l].
  - cbn. destruct (newton_loop ecc [x] nmax 0 [x] [x]) eqn:Hloop; [done|].
    intros [= <-]. apply newton_loop_raises in Hloop. auto.
  - cbn [values]. destruct (length a =? 0)%nat; [intros [= <-]; auto|].
    destruct (newton_loop ecc a nmax 0 a a) eqn:Hloop; [done|].
    intros [= <-]. apply newton_loop_raises in Hloop. auto.
  - intros [= <-]. auto.
Qed.

(** The evaluation pipeline fails in three ways only. *)
Lemma rv_curve_py_raises t g k w ecc t0 P e :
  rv_curve_py t g k w ecc t0 P = Raise e ->
  e = TypeError \/ e = ValueError \/ e = RuntimeError.
Proof.
  unfold rv_curve_py.
  destruct (mean_anomaly t t0 P) as [ma|e0] eqn:Hma.
  - rewrite bind_Ok.
    destruct (true_anomaly ma ecc default_niterationmax) as [ta|e1] eqn:Hta.
    + rewrite bind_Ok. destruct ta; cbn; try done. intros [= <-]. auto.
    + intros [= <-]. by apply true_anomaly_raises in Hta.
  - destruct t; cbn in Hma; try done. injection Hma as <-.
    intros [= <-]. auto.
Qed.

(** X12.  [RV_from_params] raises [KeyError] only for a key it reads
    ([k2] in place of [k1] for the companion) that the mapping lacks, and
    it does raise one when such a key is missing, whatever the times.
    With the six keys present and a string among their values it raises
    [TypeError]. *)
Theorem RV_from_params_key_and_type_errors (t : pyarg)
    (params : gmap string pyval) (ignore_mean companion : bool) :
  (forall e, RV_from_params t params ignore_mean companion = Raise (KeyError e)
     -> e ∈ needed_keys companion /\ params !! e = None)
  /\ ((exists key, key ∈ needed_keys companion /\ params !! key = None) ->
      exists key, key ∈ needed_keys companion /\ params !! key = None
        /\ RV_from_params t params ignore_mean companion
           = Raise (KeyError key))
  /\ ((forall key, key ∈ needed_keys companion -> is_Some (params !! key)) ->
      (exists key s, key ∈ needed_keys companion
                     /\ params !! key = Some (VStr s)) ->
      RV_from_params t params ignore_mean companion = Raise TypeError).
Proof.
  unfold RV_from_params, getitem, needed_keys.
  set (kname := if companion then "k2" else "k1").
  destruct (params !! "mean_val") as [v1|] eqn:H1.
  2:{ split; [|split].
      - intros e [= <-]. split; [set_solver|done].
      - intros _. exists "mean_val". split; [set_solver|done].
      - intros Hall. destruct (Hall "mean_val" ltac:(set_solver)). congruence. }
  destruct (params !! kname) as [v2|] eqn:H2.
  2:{ split; [|split].
      - intros e [= <-]. split; [set_solver|done].
      - intros _. exists kname. split; [set_solver|done].
      - intros Hall. destruct (Hall kname ltac:(set_solver)). congruence. }
  destruct (params !! "omega") as [v3|] eqn:H3.
  2:{ split; [|split].
      - intros e [= <-]. split; [set_solver|done].
      - intros _. exists "omega". split; [set_solver|done].
      - intros Hall. destruct (Hall "omega" ltac:(set_solver)). congruence. }
  destruct (params !! "eccentricity") as [v4|] eqn:H4.
  2:{ split; [|split].
      - intros e [= <-]. split; [set_solver|done].
      - intros _. exists "eccentricity". split; [set_solver|done].
      - intros Hall. destruct (Hall "eccentricity" ltac:(set_solver)).
        congruence. }
  destruct (params !! "tau") as [v5|] eqn:H5.
  2:{ split; [|split].
      - intros e [= <-]. split; [set_solver|done].
      - intros _. exists "tau". split; [set_solver|done].
      - intros Hall. destruct (Hall "tau" ltac:(set_solver)). congruence. }
  destruct (params !! "period") as [v6|] eqn:H6.
  2:{ split; [|split].
      - intros e [= <-]. split; [set_solver|done].
      - intros _. exists "period". split; [set_solver|done].
      - intros Hall. destruct (Hall "period" ltac:(set_solver)). congruence. }
  rewrite !bind_Ok. split; [|split].
  - intros e He.
    destruct v3 as [x3| |]; [|done..]. destruct v1 as [x1| |]; [|done..].
    destruct v2 as [x2| |]; [|done..]. destruct v4 as [x4| |]; [|done..].
    destruct v5 as [x5| |]; [|done..]. destruct v6 as [x6| |]; [|done..].
    cbn in He. apply rv_curve_py_raises in He as [?|[?|?]]; done.
  - intros (key & Hkey & Hnone). exfalso.
    repeat (apply elem_of_cons in Hkey as [->|Hkey]; [congruence|]).
    by apply elem_of_nil in Hkey.
  - intros _ (key & s & Hkey & Hv).
    pose (v := VStr s). assert (Hstr : forall x, v <> VFloat x) by done.
    change (params !! key = Some v) in Hv. clearbody v.
    destruct v3 as [x3| |]; [|done..]. destruct v1 as [x1| |]; [|done..].
    destruct v2 as [x2| |]; [|done..]. destruct v4 as [x4| |]; [|done..].
    destruct v5 as [x5| |]; [|done..]. destruct v6 as [x6| |]; [|done..].
    exfalso.
    repeat (apply elem_of_cons in Hkey as [->|Hkey];
            [first [apply (Hstr x1); congruence | apply (Hstr x2); congruence
                   | apply (Hstr x3); congruence | apply (Hstr x4); congruence
                   | apply (Hstr x5); congruence | apply (Hstr x6); congruence]
            |]).
    by apply elem_of_nil in Hkey.
Qed.

Lemma RV_from_params_key_and_type_errors_witness :
  (exists key, key ∈ needed_keys true
               /\ (∅ : gmap string pyval) !! key = None)
  /\ exists key, key ∈ needed_keys true
       /\ (∅ : gmap string pyval) !! key = None
       /\ RV_from_params (Scalar (Fin 0)) ∅ false true = Raise (KeyError key).
Proof.
  assert (H : exists key, key ∈ needed_keys true
                          /\ (∅ : gmap string pyval) !! key = None).
  { exists "k2". split; [|done]. unfold needed_keys. set_solver. }
  split; [exact H|].
  exact (proj1 (proj2 (RV_from_params_key_and_type_errors (Scalar (Fin 0)) ∅
                         false true)) H).
Defined.

End rv_from_params.

(** ** Offset and companion in [RV_from_params] *)

Section offset_and_companion.
Import np rv_utils.
Local Open Scope R_scope.

Lemma fadd_zero_l x : fadd (Fin 0) x = x.
Proof. destruct x; try done. simpl. f_equal. lra. Qed.

(** The errors of the evaluation pipeline do not depend on the offset
    and the amplitude, and what it returns is an array with one value per
    time. *)
Lemma rv_curve_py_outcome t w e t0 P :
  (exists err, forall g' k', rv_curve_py t g' k' w e t0 P = Raise err)
  \/ exists nus,
       length nus = length (values t)
       /\ forall g' k',
            rv_curve_py t g' k' w e t0 P
            = Ok (Array ((fun nu => fadd g' (fmul k' (fadd (fcos (fadd nu w))
                                                          (fmul e (fcos w)))))
                         <$> nus)).
Proof.
  unfold rv_curve_py.
  destruct (mean_anomaly t t0 P) as [ma|err] eqn:Hma; [|left; by exists err].
  assert (Hlen : length (values ma) = length (values t)).
  { destruct t as [x|xs|l]; unfold mean_anomaly in Hma; simplify_eq/=; [done|].
    by rewrite length_fmap. }
  destruct (true_anomaly ma e default_niterationmax) as [ta|err] eqn:Hta.
  - destruct (true_anomaly_shape _ _ _ _ Hta) as (nus & -> & Hnus).
    right. exists nus. split; [congruence|].
    intros g' k'. by rewrite bind_Ok, Hta, bind_Ok.
  - left. exists err. intros g' k'. by rewrite bind_Ok, Hta.
Qed.

(** X13.  With [ignore_mean] the values of [RV_from_params] are those of
    the plain call without the offset: the plain call returns [mean_val]
    plus each of them.  Whether the call raises, and what, depends neither
    on [ignore_mean] nor on the choice between host and companion; and
    whatever it returns is an array with one value per time. *)
Theorem RV_from_params_mean_is_an_offset (params : gmap string pyval)
    (g k1 k2 w e t0 P : R) (t : pyarg) :
  finite_params params g k1 w e t0 P ->
  params !! "k2" = Some (VFloat (Fin k2)) ->
  (forall companion vs,
      RV_from_params t params true companion = Ok (Array vs) ->
      RV_from_params t params false companion
      = Ok (Array (fadd (Fin g) <$> vs)))
  /\ (forall ignore_mean companion err,
        RV_from_params t params ignore_mean companion = Raise err <->
        RV_from_params t params false false = Raise err)
  /\ (forall ignore_mean companion r,
        RV_from_params t params ignore_mean companion = Ok r ->
        exists vs, r = Array vs /\ length vs = length (values t)).
Proof.
  intros Hparams Hk2.
  assert (Hrun : forall im c,
             RV_from_params t params im c
             = rv_curve_py (np_array t) (Fin (if im then 0 else g))
                 (Fin (if c then k2 else k1)) (Fin (w * (PI / 180))) (Fin e)
                 (Fin t0) (Fin P)).
  { intros im [|].
    - by rewrite (RV_from_params_companion _ _ _ _ _ _ _ _ _ _ Hparams Hk2).
    - by rewrite (RV_from_params_finite _ _ _ _ _ _ _ _ _ Hparams). }
  assert (Hvalues : length (values (np_array t)) = length (values t))
    by (by destruct t).
  destruct (rv_curve_py_outcome (np_array t) (Fin (w * (PI / 180))) (Fin e)
              (Fin t0) (Fin P))
    as [[err0 Herr]|(nus & Hnus & Hok)].
  - split; [|split].
    + intros c vs. by rewrite Hrun, Herr.
    + intros im c err. by rewrite !Hrun, !Herr.
    + intros im c r. by rewrite Hrun, Herr.
  - split; [|split].
    + intros c vs. rewrite !Hrun, !Hok. intros [= <-]. do 2 f_equal.
      rewrite <- list_fmap_compose. apply list_fmap_ext.
      intros ? nu _. unfold compose. f_equal. symmetry. apply fadd_zero_l.
    + intros im c err. by rewrite !Hrun, !Hok.
    + intros im c r. rewrite Hrun, Hok. intros [= <-].
      eexists. split; [done|]. by rewrite length_fmap, Hnus.
Qed.

Lemma RV_from_params_mean_is_an_offset_witness :
  finite_params example_mapping 0 1 0 0 0 1
  /\ example_mapping !! "k2" = Some (VFloat (Fin 5))
  /\ forall ignore_mean companion r,
       RV_from_params (Scalar (Fin 0)) example_mapping ignore_mean companion
       = Ok r ->
       exists vs, r = Array vs /\ length vs = length (values (Scalar (Fin 0))).
Proof.
  assert (H1 : finite_params example_mapping 0 1 0 0 0 1) by (by repeat split).
  assert (H2 : example_mapping !! "k2" = Some (VFloat (Fin 5))) by done.
  split; [exact H1|]. split; [exact H2|].
  exact (proj2 (proj2 (RV_from_params_mean_is_an_offset example_mapping
                         0 1 5 0 0 0 1 (Scalar (Fin 0)) H1 H2))).
Defined.

End offset_and_companion.

(** ** Julian dates and observation lists *)

Section dates_and_times.
Import rv_utils.

(** X14.  [JulianDate.reduce] subtracts 2400000 once: a date not yet
    reduced gets [jd - 2400000] and the flag, a reduced one is left as it
    is, so further calls change nothing more. *)
Theorem reduce_subtracts_once (self : JulianDate) (n : nat) :
  Nat.iter (S n) reduce self = reduce self
  /\ reduced (reduce self) = true
  /\ jd (reduce (mkJulianDate (jd self) false))
     = PrimFloat.sub (jd self) 2400000%float
  /\ reduce (mkJulianDate (jd self) true) = mkJulianDate (jd self) true.
Proof.
  assert (Hidem : forall d, reduce (reduce d) = reduce d).
  { intros [x [|]]; done. }
  split; [|split; [by destruct self as [x [|]]|done]].
  induction n as [|n IH]; [done|].
  change (Nat.iter (S (S n)) reduce self)
    with (reduce (Nat.iter (S n) reduce self)).
  by rewrite IH, Hidem.
Qed.

(** X15.  [join_times] never returns.  The name [pv] in its logging
    calls is not defined in the module, so once the observation list is
    there (none given, or read by [parse_obslist]) the call fails with
    [NameError]. *)
Theorem join_times_never_returns
    (parse_obslist : string -> result (list string))
    (obs_times : option (list string)) (obs_list : option string) :
  (forall r, join_times parse_obslist obs_times obs_list <> Ok r)
  /\ join_times parse_obslist obs_times None = Raise NameError
  /\ (forall filename lines,
        parse_obslist filename = Ok lines ->
        join_times parse_obslist obs_times (Some filename) = Raise NameError).
Proof.
  split; [|split].
  - intros r. unfold join_times.
    destruct obs_list as [f|]; [destruct (parse_obslist f)|]; done.
  - done.
  - intros f ls Hf. unfold join_times. by rewrite Hf.
Qed.

Lemma join_times_never_returns_witness :
  (fun _ : string => Ok ["2012-08-14"]) "obs.txt" = Ok ["2012-08-14"]
  /\ rv_utils.join_times (fun _ => Ok ["2012-08-14"]) None (Some "obs.txt")
     = Raise NameError.
Proof.
  assert (H : (fun _ : string => Ok ["2012-08-14"]) "obs.txt"
              = Ok ["2012-08-14"]) by reflexivity.
  split; [exact H|].
  exact (proj2 (proj2 (join_times_never_returns
                         (fun _ => Ok ["2012-08-14"]) None None))
           "obs.txt" ["2012-08-14"] H).
Defined.

End dates_and_times.

(** ** Ingestion of the parameter file by [rv.main] *)

Section rv_ingestion.
Import rv.
Variable py_float : string -> option float.

Lemma split_length sep s : length (split sep s) = S (count sep s).
Proof.
  induction s as [|c s IH]; simpl; [done|].
  destruct (decide (c = sep)); simpl; [by rewrite IH|].
  destruct (split sep s); simpl in *; congruence.
Qed.

Lemma lower_char_equals c : lower_char c = "="%char <-> c = "="%char.
Proof.
  destruct c as [[] [] [] [] [] [] [] []]; vm_compute; split; congruence.
Qed.

Lemma count_lower s : count "=" (lower s) = count "=" s.
Proof.
  induction s as [|c s IH]; cbn [count lower]; [done|]. rewrite IH. f_equal.
  destruct (decide (lower_char c = "="%char)) as [H|H],
           (decide (c = "="%char)) as [H'|H']; try done.
  - by apply (proj1 (lower_char_equals c)) in H.
  - by apply (proj2 (lower_char_equals c)) in H'.
Qed.

Lemma load_params_line parameters line lines :
  startswith_hash line = false ->
  (count "=" line = 1%nat
   /\ exists par val,
        load_params parameters (line :: lines)
        = load_params (dict_set parameters (strip par) (VStr (strip val)))
                      lines)
  \/ (count "=" line <> 1%nat
      /\ load_params parameters (line :: lines) = Raise ValueError).
Proof.
  intros Hhash. simpl. rewrite Hhash.
  pose proof (split_length "=" (lower line)) as Hlen.
  rewrite count_lower in Hlen.
  destruct (split "=" (lower line)) as [|par [|val [|? ?]]]; simpl in Hlen.
  - done.
  - right. split; [lia|done].
  - left. split; [lia|]. by exists par, val.
  - right. split; [lia|done].
Qed.

Lemma load_params_cases parameters lines :
  (Forall (fun line => startswith_hash line = true \/ count "=" line = 1%nat)
          lines
   /\ exists d, load_params parameters lines = Ok d)
  \/ (Exists (fun line => startswith_hash line = false
                          /\ count "=" line <> 1%nat) lines
      /\ load_params parameters lines = Raise ValueError).
Proof.
  revert parameters.
  induction lines as [|line lines IH]; intros parameters.
  - left. split; [constructor|by exists parameters].
  - destruct (startswith_hash line) eqn:Hhash.
    + replace (load_params parameters (line :: lines))
        with (load_params parameters lines) by (simpl; by rewrite Hhash).
      destruct (IH parameters) as [[Hall Hok]|[Hex Hraise]].
      * left. split; [constructor; [by left|done]|done].
      * right. split; [by apply Exists_cons_tl|done].
    + destruct (load_params_line parameters line lines Hhash)
        as [(Hone & par & val & ->)|[Hnot ->]].
      * destruct (IH (dict_set parameters (strip par) (VStr (strip val))))
          as [[Hall Hok]|[Hex Hraise]].
        -- left. split; [constructor; [by right|done]|done].
        -- right. split; [by apply Exists_cons_tl|done].
      * right. split; [by apply Exists_cons_hd|done].
Qed.

Lemma load_params_invariant (I : dict -> Prop) :
  (forall d k s, I d -> I (dict_set d k (VStr s))) ->
  forall lines d d', I d -> load_params d lines = Ok d' -> I d'.
Proof.
  intros Hset. induction lines as [|line lines IH]; intros d d' Hd; simpl.
  - by intros [= <-].
  - destruct (startswith_hash line); [by apply IH|].
    destruct (split "=" (lower line)) as [|par [|val [|? ?]]]; try done.
    apply IH, Hset, Hd.
Qed.

Lemma dict_get_set_eq d k v : dict_get (dict_set d k v) k = Some v.
Proof.
  induction d as [|[k0 v0] d IH]; simpl.
  - by rewrite decide_True.
  - destruct (decide (k0 = k)) as [->|Hne]; simpl.
    + by rewrite decide_True.
    + by rewrite decide_False.
Qed.

Lemma elem_of_dict_keys d k : k ∈ dict_keys d <-> is_Some (dict_get d k).
Proof.
  unfold dict_keys. induction d as [|[k0 v0] d IH]; simpl.
  - split; [by intros ?%elem_of_nil|by intros [? ?]].
  - rewrite elem_of_cons. destruct (decide (k0 = k)) as [->|Hne].
    + split; [by eexists|by left].
    + rewrite <- IH. split; [by intros [?|?]|by right].
Qed.

Lemma dict_keys_set d k v :
  is_Some (dict_get d k) -> dict_keys (dict_set d k v) = dict_keys d.
Proof.
  unfold dict_keys. induction d as [|[k0 v0] d IH]; cbn [dict_set dict_get].
  - by intros [? ?].
  - destruct (decide (k0 = k)) as [->|Hne]; [done|].
    intros H. rewrite !fmap_cons. f_equal. by apply IH.
Qed.

Lemma dict_keys_set_new d k v :
  dict_get d k = None -> dict_keys (dict_set d k v) = dict_keys d ++ [k].
Proof.
  unfold dict_keys. induction d as [|[k0 v0] d IH]; cbn [dict_set dict_get];
    [done|].
  destruct (decide (k0 = k)) as [->|Hne]; [done|].
  intros H. rewrite !fmap_cons. cbn [app]. f_equal. by apply IH.
Qed.

Lemma dict_set_NoDup d k s :
  NoDup (dict_keys d) -> NoDup (dict_keys (dict_set d k (VStr s))).
Proof.
  intros Hd. destruct (dict_get d k) as [v|] eqn:Hk.
  - by rewrite dict_keys_set.
  - rewrite dict_keys_set_new by done.
    apply NoDup_app. split; [done|]. split; [|apply NoDup_singleton].
    intros x Hx Hx'. apply elem_of_cons in Hx' as [->|Hx']; [|by apply elem_of_nil in Hx'].
    apply elem_of_dict_keys in Hx as [? ?]. congruence.
Qed.

Lemma dict_set_strings d k s :
  (forall k' v, dict_get d k' = Some v -> exists s', v = VStr s') ->
  forall k' v, dict_get (dict_set d k (VStr s)) k' = Some v ->
               exists s', v = VStr s'.
Proof.
  intros Hd k' v. destruct (decide (k = k')) as [->|Hne].
  - rewrite dict_get_set_eq. intros [= <-]. by eexists.
  - rewrite dict_get_set_ne by done. apply Hd.
Qed.

Lemma load_params_strings lines loaded :
  load_params [] lines = Ok loaded ->
  NoDup (dict_keys loaded)
  /\ forall k v, dict_get loaded k = Some v -> exists s, v = VStr s.
Proof.
  intros Hload. split.
  - apply (load_params_invariant (fun d => NoDup (dict_keys d))
             (fun d k s => dict_set_NoDup d k s) lines [] loaded);
      [apply NoDup_nil_2|done].
  - apply (load_params_invariant
             (fun d => forall k v, dict_get d k = Some v -> exists s, v = VStr s)
             (fun d k s => dict_set_strings d k s) lines [] loaded);
      [done|done].
Qed.

Lemma to_floats_keys keys d d' :
  to_floats py_float keys d = Ok d' -> dict_keys d' = dict_keys d.
Proof.
  revert d. induction keys as [|key keys IH]; intros d; simpl.
  - by intros [= ->].
  - case_bool_decide as Hfk; [|apply IH].
    unfold getitem. destruct (dict_get d key) as [v|] eqn:Hkey; simpl; [|done].
    destruct (float_of py_float v) as [f|]; simpl; [|done].
    intros H. rewrite (IH _ H). apply dict_keys_set. by eexists.
Qed.

Lemma to_floats_stable keys d d' k f :
  to_floats py_float keys d = Ok d' ->
  dict_get d k = Some (VFloat f) -> dict_get d' k = Some (VFloat f).
Proof.
  revert d. induction keys as [|key keys IH]; intros d; simpl.
  - by intros [= ->].
  - case_bool_decide as Hfk; [|apply IH].
    unfold getitem. destruct (dict_get d key) as [v|] eqn:Hkey; simpl; [|done].
    destruct (float_of py_float v) as [f0|] eqn:Hf; simpl; [|done].
    intros H Hk. apply (IH _ H).
    destruct (decide (key = k)) as [->|Hne].
    + rewrite dict_get_set_eq. rewrite Hk in Hkey. injection Hkey as <-.
      simpl in Hf. by injection Hf as ->.
    + by rewrite dict_get_set_ne.
Qed.

Lemma to_floats_converted keys d d' k v :
  to_floats py_float keys d = Ok d' ->
  k ∈ keys -> k ∈ float_keys -> dict_get d k = Some v ->
  exists f, float_of py_float v = Ok f /\ dict_get d' k = Some (VFloat f).
Proof.
  intros H Hin Hfloat. revert d v H.
  induction keys as [|key keys IH]; intros d v; simpl.
  - by apply elem_of_nil in Hin.
  - destruct (decide (key = k)) as [->|Hne].
    + rewrite bool_decide_eq_true_2 by done.
      intros H Hk. unfold getitem in H. rewrite Hk in H. simpl in H.
      destruct (float_of py_float v) as [f|] eqn:Hf; simpl in H; [|done].
      exists f. split; [done|].
      eapply to_floats_stable; [exact H|apply dict_get_set_eq].
    + apply elem_of_cons in Hin as [->|Hin]; [done|].
      case_bool_decide as Hfk; [|by apply IH].
      unfold getitem. destruct (dict_get d key) as [v0|]; simpl; [|done].
      destruct (float_of py_float v0) as [f0|]; simpl; [|done].
      intros H Hk. apply (IH Hin _ _ H). by rewrite dict_get_set_ne.
Qed.

Lemma to_floats_raises keys d e :
  Forall (fun k => is_Some (dict_get d k)) keys ->
  to_floats py_float keys d = Raise e ->
  e = ValueError
  /\ exists k s, k ∈ float_keys /\ dict_get d k = Some (VStr s)
                 /\ py_float s = None.
Proof.
  revert d. induction keys as [|key keys IH]; intros d Hkeys; simpl; [done|].
  apply Forall_cons in Hkeys as [[v Hkey] Hkeys].
  case_bool_decide as Hfloat; [|by apply IH].
  unfold getitem. rewrite Hkey. simpl.
  assert (Hnext : forall f,
             to_floats py_float keys (dict_set d key (VFloat f)) = Raise e ->
             e = ValueError
             /\ exists k s, k ∈ float_keys /\ dict_get d k = Some (VStr s)
                            /\ py_float s = None).
  { intros f H. apply IH in H as (-> & k & s & Hk & Hget & Hs).
    - split; [done|]. exists k, s. split; [done|]. split; [|done].
      destruct (decide (key = k)) as [->|Hne].
      + by rewrite dict_get_set_eq in Hget.
      + by rewrite dict_get_set_ne in Hget.
    - eapply Forall_impl; [exact Hkeys|]. intros k' [v' Hk']. simpl.
      destruct (decide (key = k')) as [->|Hne].
      + rewrite dict_get_set_eq. by eexists.
      + rewrite dict_get_set_ne by done. by eexists. }
  destruct v as [s|f]; simpl; [|apply Hnext].
  destruct (py_float s) as [f|] eqn:Hs; simpl; [apply Hnext|].
  intros [= <-]. split; [done|]. by exists key, s.
Qed.

Lemma dict_keys_present d :
  Forall (fun k => is_Some (dict_get d k)) (dict_keys d).
Proof. apply Forall_forall. intros k. apply elem_of_dict_keys. Qed.

(** X16.  The loop reading the parameter file succeeds exactly when
    every line that does not start with [#] holds one [=] sign; otherwise
    it fails with [ValueError] (from unpacking [split('=')]) and with
    nothing else.  What it has read from an empty dictionary is a
    dictionary of strings without repeated keys. *)
Theorem load_params_one_equals_sign (parameters : dict) (lines : list string) :
  (Forall (fun line => startswith_hash line = true \/ count "=" line = 1%nat)
          lines
   <-> exists d, load_params parameters lines = Ok d)
  /\ (Exists (fun line => startswith_hash line = false
                          /\ count "=" line <> 1%nat) lines
      <-> load_params parameters lines = Raise ValueError)
  /\ (forall e, load_params parameters lines = Raise e -> e = ValueError)
  /\ (forall loaded, load_params [] lines = Ok loaded ->
        NoDup (dict_keys loaded)
        /\ forall k v, dict_get loaded k = Some v -> exists s, v = VStr s).
Proof.
  split; [|split; [|split]].
  - destruct (load_params_cases parameters lines) as [[Hall Hok]|[Hex Hraise]].
    + done.
    + split.
      * intros Hall. exfalso. apply Exists_exists in Hex as (l & Hl & Hh & Hc).
        rewrite Forall_forall in Hall. destruct (Hall l Hl); congruence.
      * intros [d Hd]. congruence.
  - destruct (load_params_cases parameters lines) as [[Hall Hok]|[Hex Hraise]].
    + split.
      * intros Hex. exfalso. apply Exists_exists in Hex as (l & Hl & Hh & Hc).
        rewrite Forall_forall in Hall. destruct (Hall l Hl); congruence.
      * destruct Hok as [d Hd]. congruence.
    + done.
  - apply load_params_raises.
  - apply load_params_strings.
Qed.

(** X17.  When the conversion loop succeeds it keeps the keys and
    their order, replaces the value of every key of its list by [float]
    of it and leaves the other values alone.  It fails, and then with
    [ValueError], exactly when the value of a listed key is a string that
    [float] rejects. *)
Theorem to_floats_converts_listed_keys (loaded : dict) :
  (forall parameters,
      to_floats py_float (dict_keys loaded) loaded = Ok parameters ->
      dict_keys parameters = dict_keys loaded
      /\ forall k v, dict_get loaded k = Some v ->
           if bool_decide (k ∈ float_keys)
           then exists f, float_of py_float v = Ok f
                          /\ dict_get parameters k = Some (VFloat f)
           else dict_get parameters k = Some v)
  /\ (forall e,
        to_floats py_float (dict_keys loaded) loaded = Raise e <->
        e = ValueError
        /\ exists k s, k ∈ float_keys /\ dict_get loaded k = Some (VStr s)
                       /\ py_float s = None).
Proof.
  assert (Hok : forall parameters,
      to_floats py_float (dict_keys loaded) loaded = Ok parameters ->
      dict_keys parameters = dict_keys loaded
      /\ forall k v, dict_get loaded k = Some v ->
           if bool_decide (k ∈ float_keys)
           then exists f, float_of py_float v = Ok f
                          /\ dict_get parameters k = Some (VFloat f)
           else dict_get parameters k = Some v).
  { intros parameters H. split; [by eapply to_floats_keys|].
    intros k v Hk. case_bool_decide as Hfloat.
    - eapply to_floats_converted; [exact H| |done|done].
      apply elem_of_dict_keys. by eexists.
    - by rewrite (to_floats_other py_float _ _ _ _ Hfloat H). }
  split; [exact Hok|].
  intros e. split.
  - apply to_floats_raises, dict_keys_present.
  - intros (-> & k & s & Hfloat & Hk & Hs).
    destruct (to_floats py_float (dict_keys loaded) loaded) as [d|e] eqn:H.
    + exfalso. destruct (Hok d eq_refl) as [_ Hall].
      specialize (Hall k _ Hk). rewrite bool_decide_eq_true_2 in Hall by done.
      destruct Hall as (f & Hf & _). simpl in Hf. by rewrite Hs in Hf.
    + f_equal.
      by destruct (to_floats_raises _ _ _ (dict_keys_present loaded) H).
Qed.

Lemma is_Some_after_to_floats loaded parameters k :
  to_floats py_float (dict_keys loaded) loaded = Ok parameters ->
  is_Some (dict_get parameters k) <-> is_Some (dict_get loaded k).
Proof.
  intros H. by rewrite <- !elem_of_dict_keys, (to_floats_keys _ _ _ H).
Qed.

Lemma getitem_after_to_floats loaded parameters k :
  to_floats py_float (dict_keys loaded) loaded = Ok parameters ->
  k ∈ float_keys ->
  getitem parameters k = Raise (KeyError k) /\ dict_get loaded k = None
  \/ exists f, getitem parameters k = Ok (VFloat f)
               /\ is_Some (dict_get loaded k).
Proof.
  intros H Hfloat. unfold getitem.
  destruct (dict_get loaded k) as [v|] eqn:Hk.
  - right.
    destruct (to_floats_converted _ _ _ k v H) as (f & _ & ->);
      [apply elem_of_dict_keys; by eexists|done|done|].
    exists f. split; [done|by eexists].
  - left. split; [|done].
    destruct (dict_get parameters k) as [v|] eqn:Hk'; [|done].
    assert (Hs : is_Some (dict_get loaded k)).
    { apply (is_Some_after_to_floats _ _ _ H). by eexists. }
    rewrite Hk in Hs. by destruct Hs.
Qed.

Lemma k1_float_key : "k1" ∈ float_keys.
Proof. apply (bool_decide_unpack _). by vm_compute. Qed.

Lemma m_star_float_key : "m_star" ∈ float_keys.
Proof. apply (bool_decide_unpack _). by vm_compute. Qed.

Lemma k2_not_float_key : "k2" ∉ float_keys.
Proof. apply (bool_decide_unpack _). by vm_compute. Qed.

(** X18.  A parameter file that gives neither [k2] nor [m_true] never
    passes ingestion.  The amplitude is then computed from [msini], which
    was left a string: the call fails with [TypeError] when [k1], [m_star]
    and [msini] are given and the numbers parse, and otherwise with
    [ValueError] or with [KeyError] for one of the three. *)
Theorem ingest_needs_k2_or_m_true (lines : list string) (loaded : dict) :
  load_params [] lines = Ok loaded ->
  dict_get loaded "k2" = None -> dict_get loaded "m_true" = None ->
  (exists e, ingest py_float lines = Raise e
             /\ (e = ValueError \/ e = KeyError "k1" \/ e = KeyError "m_star"
                 \/ e = KeyError "msini" \/ e = TypeError))
  /\ (forall parameters,
        to_floats py_float (dict_keys loaded) loaded = Ok parameters ->
        is_Some (dict_get loaded "k1") -> is_Some (dict_get loaded "m_star") ->
        is_Some (dict_get loaded "msini") ->
        ingest py_float lines = Raise TypeError).
Proof.
  intros Hload Hk2 Hm_true.
  destruct (load_params_strings _ _ Hload) as [_ Hstr].
  assert (Hadd : forall parameters,
      to_floats py_float (dict_keys loaded) loaded = Ok parameters ->
      ingest py_float lines
      = (k1 ← getitem parameters "k1";
         m_star ← getitem parameters "m_star";
         m ← getitem parameters "msini";
         k2 ← companion_amplitude k1 m_star m;
         Ok (dict_set parameters "k2" k2))).
  { intros parameters H. unfold ingest. rewrite Hload. simpl. rewrite H. simpl.
    unfold add_k2, contains.
    rewrite (to_floats_other py_float _ _ _ _ k2_not_float_key H), Hk2.
    rewrite bool_decide_eq_false_2 by (by intros [? ?]).
    rewrite bool_decide_eq_false_2; [done|].
    rewrite (is_Some_after_to_floats _ _ _ H), Hm_true. by intros [? ?]. }
  assert (Hmsini : forall parameters,
      to_floats py_float (dict_keys loaded) loaded = Ok parameters ->
      getitem parameters "msini" = Raise (KeyError "msini")
      /\ dict_get loaded "msini" = None
      \/ exists s, getitem parameters "msini" = Ok (VStr s)).
  { intros parameters H. unfold getitem.
    rewrite (to_floats_other py_float _ _ _ _ msini_not_float_key H).
    destruct (dict_get loaded "msini") as [v|] eqn:Hv; [right|by left].
    destruct (Hstr _ _ Hv) as [s ->]. by exists s. }
  split.
  - destruct (to_floats py_float (dict_keys loaded) loaded) as [d|e] eqn:H.
    + rewrite (Hadd d eq_refl).
      destruct (getitem_after_to_floats _ _ "k1" H k1_float_key)
        as [[-> _]|(k1 & -> & _)]; [eexists; split; [done|tauto]|].
      destruct (getitem_after_to_floats _ _ "m_star" H m_star_float_key)
        as [[-> _]|(m & -> & _)]; [eexists; split; [done|tauto]|].
      destruct (Hmsini d eq_refl) as [[-> _]|[s ->]];
        [eexists; split; [done|tauto]|].
      exists TypeError. split; [done|tauto].
    + exists e. split.
      * unfold ingest. rewrite Hload. simpl. by rewrite H.
      * left. by destruct (to_floats_raises _ _ _ (dict_keys_present loaded) H).
  - intros parameters H Hk1 Hm_star Hm.
    rewrite (Hadd parameters H).
    destruct (getitem_after_to_floats _ _ "k1" H k1_float_key)
      as [[_ Hnone]|(k1 & -> & _)]; [rewrite Hnone in Hk1; by destruct Hk1|].
    destruct (getitem_after_to_floats _ _ "m_star" H m_star_float_key)
      as [[_ Hnone]|(m & -> & _)];
      [rewrite Hnone in Hm_star; by destruct Hm_star|].
    destruct (Hmsini parameters H) as [[_ Hnone]|[s ->]];
      [rewrite Hnone in Hm; by destruct Hm|].
    done.
Qed.

(** X19.  [main] never returns normally: a failure of ingestion is
    passed on; after a successful ingestion phase mode fails with
    [NameError] and every other mode with [TypeError]. *)
Theorem main_never_returns (lines : list string) (mode : string) :
  main py_float lines mode <> Ok tt
  /\ (forall e, ingest py_float lines = Raise e ->
                main py_float lines mode = Raise e)
  /\ (forall parameters, ingest py_float lines = Ok parameters ->
        main py_float lines "phase" = Raise NameError
        /\ (mode <> "phase" -> main py_float lines mode = Raise TypeError)).
Proof.
  unfold main. split; [|split].
  - destruct (ingest py_float lines); simpl; [|done].
    by destruct (decide (mode = "phase")).
  - by intros e ->.
  - intros parameters ->. simpl. split; [done|].
    intros Hmode. by rewrite decide_False.
Qed.

End rv_ingestion.

Lemma load_params_one_equals_sign_witness :
  Forall (fun line => rv.startswith_hash line = true
                      \/ rv.count "=" line = 1%nat)
         [rv.text_line "# orbit"; rv.text_line "K1 = 1"]
  /\ exists d,
       rv.load_params [] [rv.text_line "# orbit"; rv.text_line "K1 = 1"] = Ok d.
Proof.
  assert (H : Forall (fun line => rv.startswith_hash line = true
                                  \/ rv.count "=" line = 1%nat)
                     [rv.text_line "# orbit"; rv.text_line "K1 = 1"]).
  { apply Forall_cons. split; [by left|].
    apply Forall_cons. split; [by right|]. apply Forall_nil_2. }
  split; [exact H|].
  exact (proj1 (proj1 (load_params_one_equals_sign [] _)) H).
Defined.

Lemma to_floats_converts_listed_keys_witness :
  rv.to_floats (fun _ => Some 1%float) (rv.dict_keys [("k1", rv.VStr "1")])
    [("k1", rv.VStr "1")] = Ok [("k1", rv.VFloat 1%float)]
  /\ rv.dict_keys [("k1", rv.VFloat 1%float)]
     = rv.dict_keys [("k1", rv.VStr "1")].
Proof.
  assert (H : rv.to_floats (fun _ => Some 1%float)
                (rv.dict_keys [("k1", rv.VStr "1")]) [("k1", rv.VStr "1")]
              = Ok [("k1", rv.VFloat 1%float)]) by reflexivity.
  split; [exact H|].
  exact (proj1 (proj1 (to_floats_converts_listed_keys (fun _ => Some 1%float)
                         [("k1", rv.VStr "1")]) _ H)).
Defined.

Lemma ingest_needs_k2_or_m_true_witness :
  rv.load_params [] [rv.text_line "k1 = 1"; rv.text_line "m_star = 1";
                     rv.text_line "msini = 5"]
  = Ok [("k1", rv.VStr "1"); ("m_star", rv.VStr "1"); ("msini", rv.VStr "5")]
  /\ exists e,
       rv.ingest (fun _ => Some 1%float)
         [rv.text_line "k1 = 1"; rv.text_line "m_star = 1";
          rv.text_line "msini = 5"] = Raise e
       /\ (e = ValueError \/ e = KeyError "k1" \/ e = KeyError "m_star"
           \/ e = KeyError "msini" \/ e = TypeError).
Proof.
  assert (H1 : rv.load_params [] [rv.text_line "k1 = 1";
                                  rv.text_line "m_star = 1";
                                  rv.text_line "msini = 5"]
               = Ok [("k1", rv.VStr "1"); ("m_star", rv.VStr "1");
                     ("msini", rv.VStr "5")]) by reflexivity.
  split; [exact H1|].
  exact (proj1 (ingest_needs_k2_or_m_true (fun _ => Some 1%float) _ _ H1
                  eq_refl eq_refl)).
Defined.

Lemma main_never_returns_witness :
  rv.ingest (fun _ => None) [rv.text_line "k2 = 1"] = Ok [("k2", rv.VStr "1")]
  /\ rv.main (fun _ => None) [rv.text_line "k2 = 1"] "phase" = Raise NameError.
Proof.
  assert (H : rv.ingest (fun _ => None) [rv.text_line "k2 = 1"]
              = Ok [("k2", rv.VStr "1")]) by reflexivity.
  split; [exact H|].
  exact (proj1 (proj2 (proj2 (main_never_returns (fun _ => None)
                                [rv.text_line "k2 = 1"] "phase")) _ H)).
Defined.

Section companion_amplitude_copies.

(** X20.  On floats the two copies of [companion_amplitude] agree, and
    their only error is [ZeroDivisionError], raised exactly when
    [m_companion == 0].  The copy in [rv.py], which [main] runs on
    dictionary values, raises [TypeError] when an argument is a string. *)
Theorem companion_amplitude_errors (k_host m_host m_companion : float) :
  rv.companion_amplitude (rv.VFloat k_host) (rv.VFloat m_host)
    (rv.VFloat m_companion)
  = match rv_utils.companion_amplitude k_host m_host m_companion with
    | Ok k2 => Ok (rv.VFloat k2)
    | Raise e => Raise e
    end
  /\ (rv_utils.companion_amplitude k_host m_host m_companion
      = Raise ZeroDivisionError <-> PrimFloat.eqb m_companion 0%float = true)
  /\ (forall e, rv_utils.companion_amplitude k_host m_host m_companion
                = Raise e -> e = ZeroDivisionError)
  /\ (forall (x y z : rv.pyval) (s : string),
        x = rv.VStr s \/ y = rv.VStr s \/ z = rv.VStr s ->
        rv.companion_amplitude x y z = Raise TypeError).
Proof.
  unfold rv_utils.companion_amplitude, rv.companion_amplitude. simpl.
  split; [|split; [|split]].
  - by destruct (PrimFloat.eqb m_companion 0).
  - by destruct (PrimFloat.eqb m_companion 0).
  - intros e. destruct (PrimFloat.eqb m_companion 0); [by intros [= <-]|done].
  - intros x y z s [-> | [-> | ->]]; [by destruct y|done|].
    destruct x, y; done.
Qed.

Lemma companion_amplitude_errors_witness :
  (rv.VStr "5" = rv.VStr "5" \/ rv.VFloat 1%float = rv.VStr "5"
   \/ rv.VFloat 1%float = rv.VStr "5")
  /\ rv.companion_amplitude (rv.VStr "5") (rv.VFloat 1%float)
       (rv.VFloat 1%float) = Raise TypeError.
Proof.
  assert (H : rv.VStr "5" = rv.VStr "5" \/ rv.VFloat 1%float = rv.VStr "5"
              \/ rv.VFloat 1%float = rv.VStr "5") by (by left).
  split; [exact H|].
  exact (proj2 (proj2 (proj2 (companion_amplitude_errors 1%float 1%float
                                1%float))) _ _ _ _ H).
Defined.

End companion_amplitude_copies.
